(** * go-task-manager: a shallow embedding of the task CRUD service

    The development follows the package layout of the Go sources:
    [strconv] (the one library routine the request parser relies on),
    [entities], [rest], [db] (the SQL statements the repository issues,
    run against a small relational model), [postgres] (the repository),
    [service] and [http]. *)

From Stdlib Require Import ZArith Lia Ascii String List Permutation.
From stdpp Require Import base option list gmap strings fin_maps sorting pretty.

Local Open Scope string_scope.
Local Open Scope list_scope.
Local Open Scope Z_scope.

(** ** Go machine integers

    [int] and [int64] are 64-bit two's complement on the platforms the
    service is built for; arithmetic wraps silently. *)

Module goint.

Definition MinInt64 : Z := - 2 ^ 63.
Definition MaxInt64 : Z := 2 ^ 63 - 1.

Definition in_range (z : Z) : Prop := MinInt64 <= z <= MaxInt64.

(** Reduction of a mathematical integer to its 64-bit representative. *)
Definition wrap (z : Z) : Z := (z + 2 ^ 63) mod 2 ^ 64 - 2 ^ 63.

Definition sub (a b : Z) : Z := wrap (a - b).
Definition mul (a b : Z) : Z := wrap (a * b).

End goint.

(** ** strconv.Atoi

    [Atoi] accepts an optional sign followed by one or more decimal
    digits.  On a syntax error it yields 0; a value outside the [int]
    range is clamped to the nearest bound.  The boolean is [true] when
    Go's [err] is [nil]. *)

Module strconv.

Definition digit_of (c : ascii) : option Z :=
  let n := Z.of_nat (nat_of_ascii c) in
  if (48 <=? n) && (n <=? 57) then Some (n - 48) else None.

Fixpoint digits (s : string) (acc : Z) : option Z :=
  match s with
  | EmptyString => Some acc
  | String c s' =>
      match digit_of c with
      | Some d => digits s' (10 * acc + d)
      | None => None
      end
  end.

Definition split_sign (s : string) : bool * string :=
  match s with
  | String "-"%char r => (true, r)
  | String "+"%char r => (false, r)
  | _ => (false, s)
  end.

Definition Atoi (s : string) : Z * bool :=
  let '(neg, body) := split_sign s in
  match body with
  | EmptyString => (0, false)
  | _ =>
      match digits body 0 with
      | None => (0, false)
      | Some n =>
          let v := if neg then - n else n in
          if v <? goint.MinInt64 then (goint.MinInt64, false)
          else if goint.MaxInt64 <? v then (goint.MaxInt64, false)
          else (v, true)
      end
  end.

(** [ParseInt(s, 10, 64)] reads the same language with the same
    results; its error is non-nil exactly when [Atoi]'s is. *)
Definition ParseInt (s : string) : Z * bool := Atoi s.

End strconv.

(** ** Package entities *)

Module entities.

(** [type TaskStatus string] *)
Definition TaskStatus := string.

Definition TaskStatusPending : TaskStatus := "pending".
Definition TaskStatusInProgress : TaskStatus := "in_progress".
Definition TaskStatusDone : TaskStatus := "done".
Definition TaskStatusCanceled : TaskStatus := "canceled".

(** Timestamps are kept as abstract instants. *)
Record Task := mkTask {
  ID : Z;
  Title : string;
  Description : string;
  Status : TaskStatus;
  AssigneeID : Z;
  CreatedAt : Z;
  UpdatedAt : Z
}.

Definition IsValid (s : TaskStatus) : bool :=
  if String.eqb s TaskStatusPending then true
  else if String.eqb s TaskStatusInProgress then true
  else if String.eqb s TaskStatusDone then true
  else if String.eqb s TaskStatusCanceled then true
  else false.

End entities.

(** ** Package rest: queries and the query-string parser *)

Module rest.

(** The constants [Page] and [PerPage] of the package; they are suffixed
    here because [PaginationMeta] has fields of the same names. *)
Definition PageKey : string := "page".
Definition PerPageKey : string := "per_page".

Record PaginationMeta := mkMeta {
  Page : Z;
  PerPage : Z;
  Total : Z;
  TotalPages : Z
}.

(** [Query] embeds [PaginationMeta]; [Filter] is [map[string]string]. *)
Record Query := mkQuery {
  Filter : gmap string string;
  Pagination : PaginationMeta
}.

Definition QPage (q : Query) : Z := Page (Pagination q).
Definition QPerPage (q : Query) : Z := PerPage (Pagination q).

Definition with_Page (q : Query) (p : Z) : Query :=
  let m := Pagination q in
  mkQuery (Filter q) (mkMeta p (PerPage m) (Total m) (TotalPages m)).

Definition with_PerPage (q : Query) (p : Z) : Query :=
  let m := Pagination q in
  mkQuery (Filter q) (mkMeta (Page m) p (Total m) (TotalPages m)).

Definition with_Filter (q : Query) (k v : string) : Query :=
  mkQuery (<[k := v]> (Filter q)) (Pagination q).

(** The zero-valued query with an allocated, empty filter. *)
Definition empty_query : Query := mkQuery ∅ (mkMeta 0 0 0 0).

(** One iteration of the loop over [c.Request.URL.Query()]. *)
Definition ParseQuery_step (query : Query) (kv : string * list string) : Query :=
  let '(key, values) := kv in
  match values with
  | [] => query
  | value :: _ =>
      if String.eqb key PageKey then with_Page query (fst (strconv.Atoi value))
      else if String.eqb key PerPageKey then with_PerPage query (fst (strconv.Atoi value))
      else with_Filter query key value
  end.

Definition ParseQuery_defaults (query : Query) : Query :=
  let query := if QPage query =? 0 then with_Page query 1 else query in
  if QPerPage query =? 0 then with_PerPage query 20 else query.

(** [ParseQuery_in order] runs the parser when the runtime visits the
    URL parameters in the sequence [order]. *)
Definition ParseQuery_in (order : list (string * list string)) : Query :=
  ParseQuery_defaults (foldl ParseQuery_step empty_query order).

(** URL parameters are a [map[string][]string]; Go leaves the visiting
    order of [range] over a map unspecified. *)
Definition ParseQuery (params : gmap string (list string)) : Query :=
  ParseQuery_in (map_to_list params).

(** *** Response envelope *)

Inductive ResponseStatus := OK | Fail.

(** A failed binding: a body that is not the expected JSON, or the
    field errors reported by the validator. *)
Record FieldError := mkFieldError { Namespace : string; Field : string; Tag : string }.

Inductive BindError :=
| SyntaxError (msg : string)
| ValidationErrors (ve : list FieldError)
| PlainError (msg : string).

Definition FieldError_Error (e : FieldError) : string :=
  ("Key: '" ++ Namespace e ++ "' Error:Field validation for '" ++ Field e
     ++ "' failed on the '" ++ Tag e ++ "' tag")%string.

Record StandardResponse (D : Type) := mkResponse {
  Data : option D;
  Meta : PaginationMeta;
  Message : string;
  Errors : list string;
  Status : ResponseStatus
}.
Arguments mkResponse {D} _ _ _ _ _.
Arguments Data {D} _.
Arguments Meta {D} _.
Arguments Message {D} _.
Arguments Errors {D} _.
Arguments Status {D} _.

Definition zero_meta : PaginationMeta := mkMeta 0 0 0 0.

Definition GetSuccessResponse {D} (data : D) : StandardResponse D :=
  mkResponse (Some data) zero_meta "success" [] OK.

Definition GetFailedResponseFromMessage {D} (message : string) : StandardResponse D :=
  mkResponse None zero_meta message [] Fail.

Definition InternalServerError {D} : StandardResponse D :=
  GetFailedResponseFromMessage "Internal Server Error".

Definition NotFound {D} : StandardResponse D :=
  GetFailedResponseFromMessage "Not Found!".

Definition GetFailedResponseFromMessageAndErrors {D} (message : string)
    (errs : list string) : StandardResponse D :=
  mkResponse None zero_meta message errs Fail.

Definition GetFailedValidationResponse {D} (err : BindError) : StandardResponse D :=
  let errorsList :=
    match err with
    | ValidationErrors ve => List.map FieldError_Error ve
    | SyntaxError msg => [msg]
    | PlainError msg => [msg]
    end in
  GetFailedResponseFromMessageAndErrors "validation error" errorsList.

Definition GetSuccessResponseWithMeta {D} (data : D) (meta : PaginationMeta)
  : StandardResponse D :=
  mkResponse (Some data) meta "success" [] OK.

End rest.


(** ** Go errors

    The three kinds of [error] value that travel through the service:
    [sql.ErrNoRows], the repository's [ErrTaskNotFound], and anything
    else the driver or the server reports.  A [nil] error is [None]. *)

Module errors.

Inductive error :=
| ErrNoRows
| ErrTaskNotFound
| ErrDriver (msg : string).

(** [errors.Is(err, sql.ErrNoRows)] *)
Definition Is_ErrNoRows (e : error) : bool :=
  match e with ErrNoRows => true | _ => false end.

(** [errors.Is(err, postgres.ErrTaskNotFound)] *)
Definition Is_ErrTaskNotFound (e : error) : bool :=
  match e with ErrTaskNotFound => true | _ => false end.

End errors.

(** ** Package db: the [tasks] table and the statements run against it

    The relational engine is an external collaborator.  Its state is the
    table (in the order a sequential scan visits it), the [SERIAL]
    sequence behind [id], the value of [now()], and a script of
    [faults]: each statement consumes the head of the script, and a
    [Some msg] there makes the engine reject that statement with a
    driver error, whatever the cause (connectivity, constraint or type
    violation).  A statement that is not rejected runs as described by
    the functions below. *)

Module db.

Import entities errors.

(** Values bound to the [$n] placeholders ([args ...interface{}]). *)
Inductive arg :=
| ArgString (s : string)
| ArgInt (z : Z).

(** A condition rendered by [fmt.Sprintf("%s = $%d", field, i)]. *)
Record cond := mkCond { column : string; placeholder : Z }.

Record DB := mkDB {
  rows : list Task;
  next_id : Z;
  now : Z;
  faults : list (option string)
}.

Definition with_rows (d : DB) (r : list Task) : DB :=
  mkDB r (next_id d) (now d) (faults d).

(** Start of a statement: consult the fault script. *)
Definition begin_stmt (d : DB) : option string * DB :=
  match faults d with
  | [] => (None, d)
  | f :: fs => (f, mkDB (rows d) (next_id d) (now d) fs)
  end.

(** The value bound to [$n]; placeholders count from 1. *)
Definition bound (args : list arg) (n : Z) : option arg :=
  if n <=? 0 then None else nth_error args (Z.to_nat (n - 1)).

(** A parameter compared with an integer column stands for the integer
    it spells in decimal. *)
Definition arg_int (a : arg) : option Z :=
  match a with
  | ArgInt z => Some z
  | ArgString s =>
      let '(neg, body) := strconv.split_sign s in
      match body with
      | EmptyString => None
      | _ => (fun n => if neg then - n else n) <$> strconv.digits body 0
      end
  end.

Definition arg_text (a : arg) : option string :=
  match a with
  | ArgString s => Some s
  | ArgInt _ => None
  end.

Definition text_eq (v : string) (a : arg) : bool :=
  match arg_text a with Some s => String.eqb v s | None => false end.

Definition int_eq (v : Z) (a : arg) : bool :=
  match arg_int a with Some z => v =? z | None => false end.

(** [column = value] evaluated on one row of [tasks]. *)
Definition col_eq (c : string) (a : arg) (t : Task) : bool :=
  if String.eqb c "id" then int_eq (ID t) a
  else if String.eqb c "title" then text_eq (Title t) a
  else if String.eqb c "description" then text_eq (Description t) a
  else if String.eqb c "status" then text_eq (Status t) a
  else if String.eqb c "assignee_id" then int_eq (AssigneeID t) a
  else false.

Definition holds (args : list arg) (c : cond) (t : Task) : bool :=
  match bound args (placeholder c) with
  | Some a => col_eq (column c) a t
  | None => false
  end.

(** The conjunction [c1 AND c2 AND ...]; no condition, no [WHERE]. *)
Definition where_ (conds : list cond) (args : list arg) (t : Task) : bool :=
  forallb (fun c => holds args c t) conds.

Definition matching (conds : list cond) (args : list arg) (d : DB) : list Task :=
  List.filter (where_ conds args) (rows d).

Definition placeholder_int (args : list arg) (n : Z) : Z :=
  match bound args n with
  | Some a => default 0 (arg_int a)
  | None => 0
  end.

(** [SELECT COUNT( * ) FROM tasks [WHERE conds]] *)
Definition count_tasks (conds : list cond) (args : list arg) (d : DB)
  : (error + Z) * DB :=
  let '(f, d) := begin_stmt d in
  match f with
  | Some msg => (inl (ErrDriver msg), d)
  | None => (inr (Z.of_nat (length (matching conds args d))), d)
  end.

(** [SELECT id, title, description, status, assignee_id, created_at,
    updated_at FROM tasks [WHERE conds] LIMIT $l OFFSET $o] *)
Definition select_tasks (conds : list cond) (l o : Z) (args : list arg) (d : DB)
  : (error + list Task) * DB :=
  let '(f, d) := begin_stmt d in
  match f with
  | Some msg => (inl (ErrDriver msg), d)
  | None =>
      let limit := placeholder_int args l in
      let offset := placeholder_int args o in
      (inr (firstn (Z.to_nat limit) (skipn (Z.to_nat offset) (matching conds args d))), d)
  end.

(** [SELECT ... FROM tasks WHERE id = $1], read with [GetContext]:
    the first row, or [sql.ErrNoRows]. *)
Definition select_by_id (id : Z) (d : DB) : (error + Task) * DB :=
  let '(f, d) := begin_stmt d in
  match f with
  | Some msg => (inl (ErrDriver msg), d)
  | None =>
      match List.filter (fun t => ID t =? id) (rows d) with
      | [] => (inl ErrNoRows, d)
      | t :: _ => (inr t, d)
      end
  end.

(** [INSERT INTO tasks (title, description, status, assignee_id)
    VALUES ($1, $2, $3, $4) RETURNING id, created_at, updated_at] *)
Definition insert_task (title description : string) (status : TaskStatus)
    (assignee : Z) (d : DB) : (error + Z * Z * Z) * DB :=
  let '(f, d) := begin_stmt d in
  match f with
  | Some msg => (inl (ErrDriver msg), d)
  | None =>
      let t := mkTask (next_id d) title description status assignee (now d) (now d) in
      (inr (next_id d, now d, now d),
       mkDB (rows d ++ [t]) (next_id d + 1) (now d) (faults d))
  end.

Definition set_columns (title description : string) (status : TaskStatus)
    (stamp : Z) (t : Task) : Task :=
  mkTask (ID t) title description status (AssigneeID t) (CreatedAt t) stamp.

(** [UPDATE tasks SET title = $1, description = $2, status = $3,
    updated_at = now() WHERE id = $4 RETURNING id, title, description,
    status, assignee_id, created_at, updated_at] *)
Definition update_task (title description : string) (status : TaskStatus)
    (id : Z) (d : DB) : (error + Task) * DB :=
  let '(f, d) := begin_stmt d in
  match f with
  | Some msg => (inl (ErrDriver msg), d)
  | None =>
      let upd t :=
        if ID t =? id then set_columns title description status (now d) t else t in
      let d' := with_rows d (List.map upd (rows d)) in
      match List.filter (fun t => ID t =? id) (rows d') with
      | [] => (inl ErrNoRows, d')
      | t :: _ => (inr t, d')
      end
  end.

(** [sql.Result]: the driver may or may not be able to report the
    number of affected rows. *)
Record Result := mkResult { RowsAffected : error + Z }.

(** [DELETE FROM tasks WHERE id = $1] *)
Definition delete_task (id : Z) (d : DB) : (error + Result) * DB :=
  let '(f, d) := begin_stmt d in
  match f with
  | Some msg => (inl (ErrDriver msg), d)
  | None =>
      let gone := List.filter (fun t => ID t =? id) (rows d) in
      let kept := List.filter (fun t => negb (ID t =? id)) (rows d) in
      (inr (mkResult (inr (Z.of_nat (length gone)))), with_rows d kept)
  end.

End db.

(** ** Package postgres: the task repository *)

Module postgres.

Import errors.

(** The [TaskRepository] interface.  An implementation with state [R]
    provides the five operations; Go's multiple results are tuples,
    with [nil] pointers and [nil] errors rendered as [None]. *)
Class TaskRepository (R : Type) := {
  Create : entities.Task -> R -> (option entities.Task * option error) * R;
  Update : entities.Task -> R -> (option entities.Task * option error) * R;
  GetByID : Z -> R -> (option entities.Task * option error) * R;
  Delete : Z -> R -> option error * R;
  List : rest.Query -> R -> (list entities.Task * Z * option error) * R
}.

(** The SQL-backed implementation, [type Task struct { db db.DB }]. *)
Module Task.

Definition Create (t : entities.Task) (d : db.DB)
  : (option entities.Task * option error) * db.DB :=
  let '(res, d) :=
    db.insert_task (entities.Title t) (entities.Description t)
      (entities.Status t) (entities.AssigneeID t) d in
  match res with
  | inl err => ((None, Some err), d)
  | inr (id, created, updated) =>
      ((Some (entities.mkTask id (entities.Title t) (entities.Description t)
                (entities.Status t) (entities.AssigneeID t) created updated),
        None), d)
  end.

Definition GetByID (id : Z) (d : db.DB)
  : (option entities.Task * option error) * db.DB :=
  let '(res, d) := db.select_by_id id d in
  match res with
  | inl err =>
      if Is_ErrNoRows err then ((None, Some ErrTaskNotFound), d)
      else ((None, Some err), d)
  | inr task => ((Some task, None), d)
  end.

Definition is_filter_column (field : string) : bool :=
  String.eqb field "status" || String.eqb field "assignee_id"
  || String.eqb field "title".

(** One iteration of [for field, value := range query.Filter]; the
    state is [(conditions, args, i)].  At most three keys pass the
    [switch], so [i] stays far from the integer bounds. *)
Definition List_step (st : list db.cond * list db.arg * Z) (fv : string * string)
  : list db.cond * list db.arg * Z :=
  let '(conditions, args, i) := st in
  let '(field, value) := fv in
  if is_filter_column field
  then (conditions ++ [db.mkCond field i], args ++ [db.ArgString value], i + 1)
  else st.

(** [List_in order] is [List] when the runtime visits the filter
    entries in the sequence [order]. *)
Definition List_in (order : list (string * string)) (query : rest.Query) (d : db.DB)
  : (list entities.Task * Z * option error) * db.DB :=
  let '(conditions, args, i) := foldl List_step ([], [], 1) order in
  let '(res, d) := db.count_tasks conditions args d in
  match res with
  | inl err => (([], 0, Some err), d)
  | inr total =>
      let offset := goint.mul (goint.sub (rest.QPage query) 1) (rest.QPerPage query) in
      let args := args ++ [db.ArgInt (rest.QPerPage query); db.ArgInt offset] in
      let '(res, d) := db.select_tasks conditions i (i + 1) args d in
      match res with
      | inl err => (([], 0, Some err), d)
      | inr tasks => ((tasks, total, None), d)
      end
  end.

Definition List (query : rest.Query) (d : db.DB)
  : (list entities.Task * Z * option error) * db.DB :=
  List_in (map_to_list (rest.Filter query)) query d.

Definition Update (t : entities.Task) (d : db.DB)
  : (option entities.Task * option error) * db.DB :=
  let '(res, d) :=
    db.update_task (entities.Title t) (entities.Description t)
      (entities.Status t) (entities.ID t) d in
  match res with
  | inl err =>
      if Is_ErrNoRows err then ((None, Some ErrTaskNotFound), d)
      else ((None, Some err), d)
  | inr row => ((Some row, None), d)
  end.

Definition Delete (id : Z) (d : db.DB) : option error * db.DB :=
  let '(res, d) := db.delete_task id d in
  match res with
  | inl err => (Some err, d)
  | inr result =>
      match db.RowsAffected result with
      | inl err => (Some err, d)
      | inr rows => if rows =? 0 then (Some ErrTaskNotFound, d) else (None, d)
      end
  end.

End Task.

#[global] Instance Task_repository : TaskRepository db.DB := {
  Create := Task.Create;
  Update := Task.Update;
  GetByID := Task.GetByID;
  Delete := Task.Delete;
  List := Task.List
}.

End postgres.

(** ** Package monitoring: the metrics the service touches

    Only the label tuples of latency observations are kept; the observed
    durations are wall-clock readings. *)

Module monitoring.

Record TaskMetrics := mkMetrics {
  TasksCount : Z;
  RequestLatency : list (string * string * string)
}.

Definition Inc (m : TaskMetrics) : TaskMetrics :=
  mkMetrics (TasksCount m + 1) (RequestLatency m).

Definition Observe (method status svc : string) (m : TaskMetrics) : TaskMetrics :=
  mkMetrics (TasksCount m) (RequestLatency m ++ [(method, status, svc)]).

End monitoring.

(** ** Package service *)

Module service.

Import errors.

(** The [TaskService] interface consumed by the HTTP handlers. *)
Class TaskService (S : Type) := {
  Create : entities.Task -> S -> (option entities.Task * option error) * S;
  Update : entities.Task -> S -> (option entities.Task * option error) * S;
  GetByID : Z -> S -> (option entities.Task * option error) * S;
  List : rest.Query -> S -> (list entities.Task * Z * option error) * S;
  Delete : Z -> S -> option error * S
}.

Definition statusLabel (err : option error) : string :=
  match err with
  | Some _ => "error"
  | None => "success"
  end.

(** [type Task struct { taskRepo; metrics }] *)
Record Svc (R : Type) := mkSvc {
  taskRepo : R;
  metrics : monitoring.TaskMetrics
}.
Arguments mkSvc {R} _ _.
Arguments taskRepo {R} _.
Arguments metrics {R} _.

Module Task.
Section WithRepository.

Context {R : Type} `{postgres.TaskRepository R}.

Definition Create (task : entities.Task) (t : Svc R)
  : (option entities.Task * option error) * Svc R :=
  let '((createdTask, err), repo) := postgres.Create task (taskRepo t) in
  let m := metrics t in
  let m := match err with None => monitoring.Inc m | Some _ => m end in
  let m := monitoring.Observe "POST" (statusLabel err) "task_service" m in
  ((createdTask, err), mkSvc repo m).

Definition GetByID (id : Z) (t : Svc R)
  : (option entities.Task * option error) * Svc R :=
  let '((task, err), repo) := postgres.GetByID id (taskRepo t) in
  let m := monitoring.Observe "GET" (statusLabel err) "task_service" (metrics t) in
  ((task, err), mkSvc repo m).

Definition List (query : rest.Query) (t : Svc R)
  : (list entities.Task * Z * option error) * Svc R :=
  let '((tasks, total, err), repo) := postgres.List query (taskRepo t) in
  let m := monitoring.Observe "GET" (statusLabel err) "task_service" (metrics t) in
  ((tasks, total, err), mkSvc repo m).

Definition Update (task : entities.Task) (t : Svc R)
  : (option entities.Task * option error) * Svc R :=
  let '((updatedTask, err), repo) := postgres.Update task (taskRepo t) in
  let m := monitoring.Observe "PUT" (statusLabel err) "task_service" (metrics t) in
  ((updatedTask, err), mkSvc repo m).

(** On success the code calls [Desc()] on the counter, which only
    reads its descriptor: the count is left as it is. *)
Definition Delete (id : Z) (t : Svc R) : option error * Svc R :=
  let '(err, repo) := postgres.Delete id (taskRepo t) in
  let m := metrics t in
  let m := monitoring.Observe "DELETE" (statusLabel err) "task_service" m in
  (err, mkSvc repo m).

End WithRepository.
End Task.

#[global] Instance Task_service {R : Type} `{postgres.TaskRepository R}
  : TaskService (Svc R) := {
  Create := Task.Create;
  Update := Task.Update;
  GetByID := Task.GetByID;
  List := Task.List;
  Delete := Task.Delete
}.

End service.

(** ** Package http: the task handlers

    A handler consumes the request (already split into path parameter,
    URL parameters and body) and the service state, and produces the
    reply written to the client.  Logging is left out. *)

Module http.

Import errors.

Definition InvalidTaskStatus : string := "Invalid task status".
Definition TaskIDIsRequired : string := "Task ID is required".
Definition InvalidTaskID : string := "Invalid task ID".

Record CreateTaskRequest := mkCreateReq {
  c_Title : string;
  c_Description : string;
  c_Status : entities.TaskStatus;
  c_AssigneeID : Z
}.

Record UpdateTaskRequest := mkUpdateReq {
  u_Title : string;
  u_Description : string;
  u_Status : entities.TaskStatus;
  u_AssigneeID : Z
}.

Record TaskResponse := mkTaskResponse {
  r_ID : Z;
  r_Title : string;
  r_Description : string;
  r_Status : entities.TaskStatus;
  r_AssigneeID : Z;
  r_CreatedAt : Z;
  r_UpdatedAt : Z
}.

Inductive Payload :=
| OneTask (t : TaskResponse)
| Tasks (ts : list entities.Task).

(** What the handler leaves on the wire.  [Panicked] stands for a nil
    pointer dereference inside the handler. *)
Inductive Reply :=
| JSON (code : Z) (body : rest.StandardResponse Payload)
| StatusOnly (code : Z)
| Panicked.

Definition StatusBadRequest : Z := 400.
Definition StatusNotFound : Z := 404.
Definition StatusInternalServerError : Z := 500.
Definition StatusOK : Z := 200.
Definition StatusCreated : Z := 201.
Definition StatusNoContent : Z := 204.

(** A request body: either it does not decode into the target struct,
    or it decodes to a value whose absent members are zero. *)
Inductive Body (A : Type) :=
| Undecodable (msg : string)
| Decoded (a : A).
Arguments Undecodable {A} _.
Arguments Decoded {A} _.

Definition required_string (ns field : string) (v : string) : list rest.FieldError :=
  if String.eqb v "" then [rest.mkFieldError ns field "required"] else [].

Definition required_int (ns field : string) (v : Z) : list rest.FieldError :=
  if v =? 0 then [rest.mkFieldError ns field "required"] else [].

(** [c.ShouldBindJSON(&req)] for a [CreateTaskRequest]: [title] and
    [assignee_id] carry [binding:"required"]. *)
Definition ShouldBindJSON_create (b : Body CreateTaskRequest)
  : rest.BindError + CreateTaskRequest :=
  match b with
  | Undecodable msg => inl (rest.SyntaxError msg)
  | Decoded req =>
      match required_string "CreateTaskRequest.Title" "Title" (c_Title req)
            ++ required_int "CreateTaskRequest.AssigneeID" "AssigneeID" (c_AssigneeID req) with
      | [] => inr req
      | ve => inl (rest.ValidationErrors ve)
      end
  end.

(** [binding:"required,oneof=pending in_progress done canceled"] *)
Definition status_tag_errors (ns field : string) (v : entities.TaskStatus)
  : list rest.FieldError :=
  if String.eqb v "" then [rest.mkFieldError ns field "required"]
  else if existsb (String.eqb v) ["pending"; "in_progress"; "done"; "canceled"] then []
  else [rest.mkFieldError ns field "oneof"].

Definition ShouldBindJSON_update (b : Body UpdateTaskRequest)
  : rest.BindError + UpdateTaskRequest :=
  match b with
  | Undecodable msg => inl (rest.SyntaxError msg)
  | Decoded req =>
      match required_string "UpdateTaskRequest.Title" "Title" (u_Title req)
            ++ status_tag_errors "UpdateTaskRequest.Status" "Status" (u_Status req)
            ++ required_int "UpdateTaskRequest.AssigneeID" "AssigneeID" (u_AssigneeID req) with
      | [] => inr req
      | ve => inl (rest.ValidationErrors ve)
      end
  end.

Definition response_of (t : entities.Task) : TaskResponse :=
  mkTaskResponse (entities.ID t) (entities.Title t) (entities.Description t)
    (entities.Status t) (entities.AssigneeID t)
    (entities.CreatedAt t) (entities.UpdatedAt t).

(** The entity [TaskCreate] hands to the service. *)
Definition create_entity (req : CreateTaskRequest) : entities.Task :=
  entities.mkTask 0 (c_Title req) (c_Description req) (c_Status req)
    (c_AssigneeID req) 0 0.

(** The entity [TaskUpdate] hands to the service. *)
Definition update_entity (taskID : Z) (req : UpdateTaskRequest) : entities.Task :=
  entities.mkTask taskID (u_Title req) (u_Description req) (u_Status req)
    (u_AssigneeID req) 0 0.

Section Handler.

Context {S : Type} `{service.TaskService S}.

Definition TaskCreate (body : Body CreateTaskRequest) (h : S) : Reply * S :=
  match ShouldBindJSON_create body with
  | inl err => (JSON StatusBadRequest (rest.GetFailedValidationResponse err), h)
  | inr req =>
      let req :=
        if String.eqb (c_Status req) ""
        then mkCreateReq (c_Title req) (c_Description req)
               entities.TaskStatusPending (c_AssigneeID req)
        else req in
      if negb (entities.IsValid (c_Status req))
      then (JSON StatusBadRequest
              (rest.GetFailedValidationResponse (rest.PlainError InvalidTaskStatus)), h)
      else
        let '((createdTask, err), h) := service.Create (create_entity req) h in
        match err with
        | Some _ => (JSON StatusInternalServerError rest.InternalServerError, h)
        | None =>
            match createdTask with
            | Some t => (JSON StatusCreated (rest.GetSuccessResponse (OneTask (response_of t))), h)
            | None => (Panicked, h)
            end
        end
  end.

Definition TaskUpdate (taskIDParam : string) (body : Body UpdateTaskRequest) (h : S)
  : Reply * S :=
  if String.eqb taskIDParam ""
  then (JSON StatusBadRequest
          (rest.GetFailedValidationResponse (rest.PlainError TaskIDIsRequired)), h)
  else
    let '(taskID, ok) := strconv.ParseInt taskIDParam in
    if negb ok
    then (JSON StatusBadRequest
            (rest.GetFailedValidationResponse (rest.PlainError InvalidTaskStatus)), h)
    else
      match ShouldBindJSON_update body with
      | inl err => (JSON StatusBadRequest (rest.GetFailedValidationResponse err), h)
      | inr req =>
          let '((updatedTask, err), h) := service.Update (update_entity taskID req) h in
          match err with
          | Some e =>
              if Is_ErrTaskNotFound e
              then (JSON StatusNotFound rest.NotFound, h)
              else (JSON StatusInternalServerError rest.InternalServerError, h)
          | None =>
              match updatedTask with
              | Some t => (JSON StatusOK (rest.GetSuccessResponse (OneTask (response_of t))), h)
              | None => (Panicked, h)
              end
          end
      end.

Definition TaskDelete (taskIDParam : string) (h : S) : Reply * S :=
  if String.eqb taskIDParam ""
  then (JSON StatusBadRequest
          (rest.GetFailedValidationResponse (rest.PlainError TaskIDIsRequired)), h)
  else
    let '(taskID, ok) := strconv.ParseInt taskIDParam in
    if negb ok
    then (JSON StatusBadRequest
            (rest.GetFailedValidationResponse (rest.PlainError InvalidTaskID)), h)
    else
      let '(err, h) := service.Delete taskID h in
      match err with
      | Some e =>
          if Is_ErrTaskNotFound e
          then (JSON StatusNotFound rest.NotFound, h)
          else (JSON StatusInternalServerError rest.InternalServerError, h)
      | None => (StatusOnly StatusNoContent, h)
      end.

Definition TaskGetByID (taskIDParam : string) (h : S) : Reply * S :=
  if String.eqb taskIDParam ""
  then (JSON StatusBadRequest
          (rest.GetFailedValidationResponse (rest.PlainError TaskIDIsRequired)), h)
  else
    let '(taskID, ok) := strconv.ParseInt taskIDParam in
    if negb ok
    then (JSON StatusBadRequest
            (rest.GetFailedValidationResponse (rest.PlainError InvalidTaskID)), h)
    else
      let '((task, err), h) := service.GetByID taskID h in
      match err with
      | Some e =>
          if Is_ErrTaskNotFound e
          then (JSON StatusNotFound rest.NotFound, h)
          else (JSON StatusInternalServerError rest.InternalServerError, h)
      | None =>
          match task with
          | Some t => (JSON StatusOK (rest.GetSuccessResponse (OneTask (response_of t))), h)
          | None => (Panicked, h)
          end
      end.

Definition TaskList (params : gmap string (list string)) (h : S) : Reply * S :=
  let query := rest.ParseQuery params in
  let '((tasks, total, err), h) := service.List query h in
  match err with
  | Some _ => (JSON StatusInternalServerError rest.InternalServerError, h)
  | None =>
      (JSON StatusOK
         (rest.GetSuccessResponseWithMeta (Tasks tasks)
            (rest.mkMeta (rest.QPage query) (rest.QPerPage query) total 0)), h)
  end.

End Handler.

End http.

(** ** Call-recording stubs

    A stub wraps an implementation of an interface, notes every call made
    through the interface and otherwise delegates.  It is the device by
    which "the store was (not) invoked" is observed. *)

Module spy.

Inductive Call :=
| CallCreate (t : entities.Task)
| CallUpdate (t : entities.Task)
| CallGetByID (id : Z)
| CallDelete (id : Z)
| CallList (q : rest.Query).

Record Spy (R : Type) := mkSpy { inner : R; calls : list Call }.
Arguments mkSpy {R} _ _.
Arguments inner {R} _.
Arguments calls {R} _.

Definition noted {R A} (c : Call) (op : R -> A * R) (s : Spy R) : A * Spy R :=
  let '(a, r) := op (inner s) in (a, mkSpy r (calls s ++ [c])).

#[global] Instance Spy_repository {R : Type} `{postgres.TaskRepository R}
  : postgres.TaskRepository (Spy R) := {
  postgres.Create t := noted (CallCreate t) (postgres.Create t);
  postgres.Update t := noted (CallUpdate t) (postgres.Update t);
  postgres.GetByID id := noted (CallGetByID id) (postgres.GetByID id);
  postgres.Delete id := noted (CallDelete id) (postgres.Delete id);
  postgres.List q := noted (CallList q) (postgres.List q)
}.

#[global] Instance Spy_service {S : Type} `{service.TaskService S}
  : service.TaskService (Spy S) := {
  service.Create t := noted (CallCreate t) (service.Create t);
  service.Update t := noted (CallUpdate t) (service.Update t);
  service.GetByID id := noted (CallGetByID id) (service.GetByID id);
  service.List q := noted (CallList q) (service.List q);
  service.Delete id := noted (CallDelete id) (service.Delete id)
}.

End spy.

(** ** The query key encoder

    The listing cache of the design document is keyed by an encoded
    query.  The sources contain no encoder (and no cache client), so the
    encoder below is written from the design text alone. *)

Module keyenc.

(** Does the character occur in the string? *)
Fixpoint has_char (c : ascii) (s : string) : bool :=
  match s with
  | EmptyString => false
  | String x s' => Ascii.eqb x c || has_char c s'
  end.

(** The characters a decimal rendering is made of. *)
Definition numeric_char (c : ascii) : bool :=
  existsb (Ascii.eqb c)
    ["0"; "1"; "2"; "3"; "4"; "5"; "6"; "7"; "8"; "9"; "-"]%char.

(** A filter mapping none of whose keys contains ["="] or the
    separator character and none of whose values contains the
    separator character. *)
Definition clean (c : ascii) (F : gmap string string) : Prop :=
  forall k v, F !! k = Some v ->
    has_char c k = false /\ has_char "="%char k = false /\ has_char c v = false.

(** A separator made of a single character. *)
Definition one (c : ascii) : string := String c EmptyString.

(** The text that the tokens [xs] contribute to a joined string when
    more tokens follow them. *)
Definition lead (sep : string) (xs : list string) : string :=
  foldr (fun x acc => (x +:+ sep +:+ acc)%string) "" xs.

Section Encoder.

(** The fixed separator. *)
Variable sep : string.

(** Modelled from the spec: the [field=value] rendering of one filter
    entry (section 4.1, Query Key Encoder; the sources have no
    encoder). *)
Definition pair_text (F : gmap string string) (k : string) : string :=
  (k +:+ "=" +:+ default "" (F !! k))%string.

(** Modelled from the spec: the Query Key Encoder of section 4.1 (absent
    from the sources), run when the filter keys are met in the sequence
    [order]: sort the keys lexicographically, render each entry as
    [field=value], append page and page size, and join everything with
    the separator. *)
Definition encode_in (order : list string) (F : gmap string string) (P S : Z) : string :=
  String.concat sep
    ((pair_text F <$> merge_sort String.le order) ++ [pretty P; pretty S]).

(** Modelled from the spec: the Query Key Encoder of section 4.1 (absent
    from the sources) applied to a filter mapping. *)
Definition encode (F : gmap string string) (P S : Z) : string :=
  encode_in ((map_to_list F).*1) F P S.

End Encoder.
End keyenc.

(** ** Vocabulary of the properties *)

Module props.

Import errors.



(** A row passes the filter when every entry under one of the three
    filter columns equals the row's column; other entries are not
    looked at. *)
Definition exact_match (F : gmap string string) (t : entities.Task) : bool :=
  forallb
    (fun kv : string * string =>
       negb (postgres.Task.is_filter_column kv.1)
       || db.col_eq kv.1 (db.ArgString kv.2) t)
    (map_to_list F).

(** A paginated listing in the words of the interface contract: count
    the rows that pass [keep], then return the [perPage] rows found
    after skipping [offset] of them; either statement may be
    rejected by the engine. *)
Definition listing (keep : entities.Task -> bool) (perPage offset : Z) (d : db.DB)
  : (list entities.Task * Z * option error) * db.DB :=
  let '(f, d) := db.begin_stmt d in
  match f with
  | Some msg => (([], 0, Some (ErrDriver msg)), d)
  | None =>
      let total := Z.of_nat (length (List.filter keep (db.rows d))) in
      let '(f, d) := db.begin_stmt d in
      match f with
      | Some msg => (([], 0, Some (ErrDriver msg)), d)
      | None =>
          ((firstn (Z.to_nat perPage)
              (skipn (Z.to_nat offset) (List.filter keep (db.rows d))),
            total, None), d)
      end
  end.

(** The filter entries that pass the [switch] in [List], in the order
    they are visited. *)
Definition recognised (order : list (string * string)) : list (string * string) :=
  List.filter (fun kv => postgres.Task.is_filter_column kv.1) order.

(** The conditions and arguments [List] has accumulated once it has
    visited the recognised entries [es], numbering from [i]. *)
Fixpoint conds_from (i : Z) (es : list (string * string)) : list db.cond :=
  match es with
  | [] => []
  | kv :: es => db.mkCond kv.1 i :: conds_from (i + 1) es
  end.

Definition args_of (es : list (string * string)) : list db.arg :=
  List.map (fun kv => db.ArgString kv.2) es.

(** The first persisted row with the given id. *)
Definition stored (id : Z) (d : db.DB) : option entities.Task :=
  head (List.filter (fun t => entities.ID t =? id) (db.rows d)).

(** What [UPDATE ... SET title, description, status, updated_at ...
    WHERE id = ...] does to one row, for the request entity [t]. *)
Definition touch (t : entities.Task) (stamp : Z) (r : entities.Task) : entities.Task :=
  if entities.ID r =? entities.ID t
  then db.set_columns (entities.Title t) (entities.Description t)
         (entities.Status t) stamp r
  else r.

(** The request entity with another assignee. *)
Definition reassigned (t : entities.Task) (a : Z) : entities.Task :=
  entities.mkTask (entities.ID t) (entities.Title t) (entities.Description t)
    (entities.Status t) a (entities.CreatedAt t) (entities.UpdatedAt t).

(** *** Sample data *)

Definition t1 : entities.Task :=
  entities.mkTask 1 "T1" "first" "pending" 5 100 100.
Definition t2 : entities.Task :=
  entities.mkTask 2 "T2" "second" "done" 7 101 101.
Definition t3 : entities.Task :=
  entities.mkTask 3 "T3" "third" "done" 5 102 102.

Definition sample_db : db.DB := db.mkDB [t1; t2; t3] 4 200 [].

(** The same table behind a connection that fails on the next
    statement. *)
Definition broken_db : db.DB := db.mkDB [t1; t2; t3] 4 200 [Some "connection refused"].

(** A freshly migrated database. *)
Definition empty_db : db.DB := db.mkDB [] 1 100 [].

Definition no_metrics : monitoring.TaskMetrics := monitoring.mkMetrics 0 [].

Definition sample_service : service.Svc (spy.Spy db.DB) :=
  service.mkSvc (spy.mkSpy sample_db []) no_metrics.

Definition first_page : rest.Query := rest.mkQuery ∅ (rest.mkMeta 1 20 0 0).

Definition page_of (F : gmap string string) (page perPage : Z) : rest.Query :=
  rest.mkQuery F (rest.mkMeta page perPage 0 0).

End props.

(** ** Vocabulary of the further properties *)

Module inv.

(** The table as the repository keeps it: ids are pairwise different
    and every id was handed out by the sequence already. *)
Definition wf (d : db.DB) : Prop :=
  NoDup (List.map entities.ID (db.rows d)) /\
  Forall (fun r => entities.ID r < db.next_id d) (db.rows d).

(** The engine runs the next statement instead of rejecting it. *)
Definition runs (d : db.DB) : Prop := (db.begin_stmt d).1 = None.

(** Two database states that differ at most in the faults still
    ahead. *)
Definition same_data (d d' : db.DB) : Prop :=
  db.rows d' = db.rows d /\ db.next_id d' = db.next_id d /\ db.now d' = db.now d.

(** The entity [Create] returns for the request [t] when the sequence
    stands at [id] and the clock at [stamp]. *)
Definition created (t : entities.Task) (id stamp : Z) : entities.Task :=
  entities.mkTask id (entities.Title t) (entities.Description t)
    (entities.Status t) (entities.AssigneeID t) stamp stamp.

(** The raw page and page size the URL parameters spell, before the
    defaults are applied. *)
Definition raw_int (params : gmap string (list string)) (key : string) : Z :=
  match params !! key with
  | Some (v :: _) => (strconv.Atoi v).1
  | _ => 0
  end.

(** The filter the URL parameters spell: the first value of every
    parameter other than the two pagination ones. *)
Definition raw_filter (params : gmap string (list string)) : gmap string string :=
  omap head (delete rest.PageKey (delete rest.PerPageKey params)).

(** The reply to a request that failed validation: status 400 and the
    failure envelope with message "validation error". *)
Definition rejected (r : http.Reply) : Prop :=
  exists errs,
    r = http.JSON 400 (rest.GetFailedResponseFromMessageAndErrors "validation error" errs).

(** *** Runs of service operations *)

(** One call on the service. *)
Inductive Op :=
| OpCreate (t : entities.Task)
| OpUpdate (t : entities.Task)
| OpGetByID (id : Z)
| OpList (q : rest.Query)
| OpDelete (id : Z).

Definition run_op {S : Type} `{service.TaskService S} (op : Op) (s : S)
  : option errors.error * S :=
  match op with
  | OpCreate t => let '((_, err), s) := service.Create t s in (err, s)
  | OpUpdate t => let '((_, err), s) := service.Update t s in (err, s)
  | OpGetByID id => let '((_, err), s) := service.GetByID id s in (err, s)
  | OpList q => let '((_, _, err), s) := service.List q s in (err, s)
  | OpDelete id => service.Delete id s
  end.

(** A sequence of calls, one after the other, with the error each one
    returned. *)
Fixpoint run_ops {S : Type} `{service.TaskService S} (ops : list Op) (s : S)
  : list (Op * option errors.error) * S :=
  match ops with
  | [] => ([], s)
  | op :: ops =>
      let '(err, s) := run_op op s in
      let '(log, s) := run_ops ops s in
      ((op, err) :: log, s)
  end.

Definition successful_create (o : Op * option errors.error) : bool :=
  match o with
  | (OpCreate _, None) => true
  | _ => false
  end.

(** The latency labels the service attaches to a call. *)
Definition labels_of (o : Op * option errors.error) : string * string * string :=
  let method :=
    match o.1 with
    | OpCreate _ => "POST"
    | OpUpdate _ => "PUT"
    | OpGetByID _ => "GET"
    | OpList _ => "GET"
    | OpDelete _ => "DELETE"
    end in
  (method, service.statusLabel o.2, "task_service").

End inv.

(** ** Package logger: scrubbing of log details

    [cleanUpDetail] walks the array of reserved keys; for each one found
    in the detail map it writes a warning and deletes the entry.  The
    state is the map together with the warnings written so far. *)

Module logger.

Definition BadKeyId : string := "id".
Definition BadKeyUnderScoreId : string := "_id".

Definition bad_key_warning : string := "Do not use id or _id in your log payload!".

Section Detail.

Context {V : Type}.

Definition cleanUpDetail_step (st : gmap string V * list string) (key : string)
  : gmap string V * list string :=
  let '(detail, warnings) := st in
  match detail !! key with
  | Some _ => (delete key detail, warnings ++ [bad_key_warning])
  | None => st
  end.

Definition cleanUpDetail (detail : gmap string V) (warnings : list string)
  : gmap string V * list string :=
  foldl cleanUpDetail_step (detail, warnings) [BadKeyId; BadKeyUnderScoreId].

End Detail.

End logger.

(** * Properties *)

(** ** Request parsing *)

Section Folds.

Context {A K V : Type}.
Implicit Types (f : A -> K * V -> A).

(** A left fold whose steps commute on entries with different keys
    does not depend on the order in which a key-unique list is
    visited. *)
Lemma foldl_perm_keys f (l l' : list (K * V)) :
  (forall a x y, x.1 <> y.1 -> f (f a x) y = f (f a y) x) ->
  l ≡ₚ l' -> NoDup (l.*1) -> forall a, foldl f a l = foldl f a l'.
Proof.
  intros Hcomm Hperm.
  induction Hperm as [|x l l' Hperm IH|x y l|l l' l'' H1 IH1 H2 IH2];
    intros Hnd a; simpl in *.
  - reflexivity.
  - apply NoDup_cons in Hnd as [_ Hnd]. auto.
  - apply NoDup_cons in Hnd as [Hy _].
    rewrite (Hcomm a y x); [reflexivity|].
    intros Heq. apply Hy. rewrite Heq. left.
  - rewrite IH1 by assumption. apply IH2.
    assert (l.*1 ≡ₚ l'.*1) as Hp by (by apply fmap_Permutation).
    by rewrite <- Hp.
Qed.

End Folds.

Module rest_facts.

Import rest.

Lemma step_page_other q (kv : string * list string) :
  kv.1 <> PageKey -> QPage (ParseQuery_step q kv) = QPage q.
Proof.
  destruct kv as [k [|v vs]]; simpl; intros Hk; [reflexivity|].
  destruct (String.eqb_spec k PageKey); [contradiction|].
  destruct (String.eqb k PerPageKey); reflexivity.
Qed.

Lemma step_per_page_other q (kv : string * list string) :
  kv.1 <> PerPageKey -> QPerPage (ParseQuery_step q kv) = QPerPage q.
Proof.
  destruct kv as [k [|v vs]]; simpl; intros Hk; [reflexivity|].
  destruct (String.eqb_spec k PageKey); [reflexivity|].
  destruct (String.eqb_spec k PerPageKey); [contradiction|reflexivity].
Qed.

Lemma fold_page_absent l q :
  Forall (fun kv : string * list string => kv.1 <> PageKey) l ->
  QPage (foldl ParseQuery_step q l) = QPage q.
Proof.
  intros Hl. revert q. induction Hl as [|kv l Hkv _ IH]; intros q; simpl.
  - reflexivity.
  - rewrite IH. by apply step_page_other.
Qed.

Lemma fold_per_page_absent l q :
  Forall (fun kv : string * list string => kv.1 <> PerPageKey) l ->
  QPerPage (foldl ParseQuery_step q l) = QPerPage q.
Proof.
  intros Hl. revert q. induction Hl as [|kv l Hkv _ IH]; intros q; simpl.
  - reflexivity.
  - rewrite IH. by apply step_per_page_other.
Qed.

Lemma absent_key {B} (m : gmap string B) k :
  m !! k = None -> Forall (fun kv : string * B => kv.1 <> k) (map_to_list m).
Proof.
  intros Hm. apply Forall_forall. intros [k' v] Hin Heq. simpl in Heq. subst k'.
  apply elem_of_map_to_list in Hin. congruence.
Qed.

Lemma defaults_page q :
  QPage (ParseQuery_defaults q) = if QPage q =? 0 then 1 else QPage q.
Proof.
  unfold ParseQuery_defaults.
  destruct (QPage q =? 0) eqn:Hp;
    [destruct (QPerPage (with_Page q 1) =? 0) | destruct (QPerPage q =? 0)];
    try reflexivity; simpl; rewrite ?Hp; reflexivity.
Qed.

Lemma defaults_per_page q :
  QPerPage (ParseQuery_defaults q) = if QPerPage q =? 0 then 20 else QPerPage q.
Proof.
  unfold ParseQuery_defaults.
  destruct (QPage q =? 0); simpl.
  - change (QPerPage (with_Page q 1)) with (QPerPage q).
    destruct (QPerPage q =? 0); reflexivity.
  - destruct (QPerPage q =? 0); reflexivity.
Qed.

Lemma fold_page_present l q v vs :
  NoDup (l.*1) -> (PageKey, v :: vs) ∈ l ->
  QPage (foldl ParseQuery_step q l) = (strconv.Atoi v).1.
Proof.
  intros Hnd Hin.
  apply list_elem_of_split in Hin as (l1 & l2 & ->).
  rewrite fmap_app, fmap_cons in Hnd.
  apply NoDup_app in Hnd as (_ & _ & Hnd). apply NoDup_cons in Hnd as [Hfresh _].
  rewrite foldl_app. simpl. rewrite fold_page_absent.
  - reflexivity.
  - apply Forall_forall. intros [k w] Hkw Heq. simpl in *. subst k.
    apply Hfresh. apply (list_elem_of_fmap_2 fst) in Hkw. exact Hkw.
Qed.

Lemma fold_per_page_present l q v vs :
  NoDup (l.*1) -> (PerPageKey, v :: vs) ∈ l ->
  QPerPage (foldl ParseQuery_step q l) = (strconv.Atoi v).1.
Proof.
  intros Hnd Hin.
  apply list_elem_of_split in Hin as (l1 & l2 & ->).
  rewrite fmap_app, fmap_cons in Hnd.
  apply NoDup_app in Hnd as (_ & _ & Hnd). apply NoDup_cons in Hnd as [Hfresh _].
  rewrite foldl_app. simpl. rewrite fold_per_page_absent.
  - reflexivity.
  - apply Forall_forall. intros [k w] Hkw Heq. simpl in *. subst k.
    apply Hfresh. apply (list_elem_of_fmap_2 fst) in Hkw. exact Hkw.
Qed.

(** Two iterations on different keys can be exchanged. *)
Lemma ParseQuery_step_comm q (x y : string * list string) :
  x.1 <> y.1 ->
  ParseQuery_step (ParseQuery_step q x) y = ParseQuery_step (ParseQuery_step q y) x.
Proof.
  destruct x as [kx [|vx wx]], y as [ky [|vy wy]]; simpl; intros Hne;
    try reflexivity.
  destruct (String.eqb_spec kx PageKey), (String.eqb_spec ky PageKey);
    try congruence;
    destruct (String.eqb_spec kx PerPageKey), (String.eqb_spec ky PerPageKey);
    try congruence; try reflexivity.
  unfold with_Filter; simpl. f_equal. apply insert_insert_ne. congruence.
Qed.

(** The parser's result does not depend on the order in which the
    runtime visits the URL parameters. *)
Lemma ParseQuery_order_irrelevant (params : gmap string (list string)) order :
  order ≡ₚ map_to_list params -> ParseQuery_in order = ParseQuery params.
Proof.
  intros Hperm. unfold ParseQuery, ParseQuery_in. f_equal.
  symmetry. apply foldl_perm_keys.
  - intros a x y. apply ParseQuery_step_comm.
  - by symmetry.
  - apply NoDup_fst_map_to_list.
Qed.

End rest_facts.

(** C7 (as amended).  The parser substitutes the defaults and nothing
    more: a request without [page] is parsed to page 1 and one without
    [per_page] to page size 20; the parsed page and page size are never
    0; and a parameter that is present is taken at the value [Atoi]
    reads from it, with 0 (also the reading of a non-numeric text)
    replaced by the default.  Negative values pass through. *)
Theorem ParseQuery_pagination (params : gmap string (list string)) :
  let q := rest.ParseQuery params in
  (params !! rest.PageKey = None -> rest.QPage q = 1) /\
  (params !! rest.PerPageKey = None -> rest.QPerPage q = 20) /\
  rest.QPage q <> 0 /\ rest.QPerPage q <> 0 /\
  (forall v vs, params !! rest.PageKey = Some (v :: vs) ->
     rest.QPage q = if (strconv.Atoi v).1 =? 0 then 1 else (strconv.Atoi v).1) /\
  (forall v vs, params !! rest.PerPageKey = Some (v :: vs) ->
     rest.QPerPage q = if (strconv.Atoi v).1 =? 0 then 20 else (strconv.Atoi v).1).
Proof.
  intros q. subst q. unfold rest.ParseQuery, rest.ParseQuery_in.
  rewrite rest_facts.defaults_page, rest_facts.defaults_per_page.
  repeat split.
  - intros Hnone.
    rewrite rest_facts.fold_page_absent by (by apply rest_facts.absent_key).
    reflexivity.
  - intros Hnone.
    rewrite rest_facts.fold_per_page_absent by (by apply rest_facts.absent_key).
    reflexivity.
  - destruct (Z.eqb_spec (rest.QPage (foldl rest.ParseQuery_step rest.empty_query
                                        (map_to_list params))) 0); lia.
  - destruct (Z.eqb_spec (rest.QPerPage (foldl rest.ParseQuery_step rest.empty_query
                                           (map_to_list params))) 0); lia.
  - intros v vs Hsome.
    rewrite (rest_facts.fold_page_present _ _ v vs); [reflexivity| |].
    + apply NoDup_fst_map_to_list.
    + by apply elem_of_map_to_list.
  - intros v vs Hsome.
    rewrite (rest_facts.fold_per_page_present _ _ v vs); [reflexivity| |].
    + apply NoDup_fst_map_to_list.
    + by apply elem_of_map_to_list.
Qed.

Lemma ParseQuery_pagination_witness :
  rest.QPage (rest.ParseQuery {[ "status" := ["done"] ]}) = 1 /\
  rest.QPerPage (rest.ParseQuery {[ "status" := ["done"] ]}) = 20.
Proof.
  destruct (ParseQuery_pagination {[ "status" := ["done"] ]}) as (Hp & Hs & _).
  split; [apply Hp | apply Hs]; vm_compute; reflexivity.
Defined.

(** C7, the claim as written, fails: [?page=-3&per_page=-5] is parsed
    to page -3 and page size -5. *)
Lemma ParseQuery_negative_page :
  let q := rest.ParseQuery {[ "page" := ["-3"]; "per_page" := ["-5"] ]} in
  rest.QPage q = -3 /\ rest.QPerPage q = -5 /\
  ~ (1 <= rest.QPage q /\ 1 <= rest.QPerPage q).
Proof.
  vm_compute. repeat split; try reflexivity.
  intros [H _]. apply H. reflexivity.
Qed.

(** ** The service is a pass-through to the repository *)

Module service_facts.
Section WithRepository.

Import errors.
Context {R : Type} `{postgres.TaskRepository R}.

Lemma List_result (q : rest.Query) (t : service.Svc R) :
  (service.List q t).1 = (postgres.List q (service.taskRepo t)).1.
Proof.
  simpl. unfold service.Task.List.
  destruct (postgres.List q (service.taskRepo t)) as [[[tasks total] err] r].
  reflexivity.
Qed.

Lemma List_repo (q : rest.Query) (t : service.Svc R) :
  service.taskRepo (service.List q t).2 = (postgres.List q (service.taskRepo t)).2.
Proof.
  simpl. unfold service.Task.List.
  destruct (postgres.List q (service.taskRepo t)) as [[[tasks total] err] r].
  reflexivity.
Qed.

End WithRepository.

(** Through a recording stub: one listing request, one [List] call on
    the store, answered by the store. *)
Lemma List_spied {R : Type} `{postgres.TaskRepository R}
    (q : rest.Query) (t : service.Svc (spy.Spy R)) :
  let out := service.List q t in
  spy.calls (service.taskRepo out.2)
    = spy.calls (service.taskRepo t) ++ [spy.CallList q] /\
  out.1 = (postgres.List q (spy.inner (service.taskRepo t))).1 /\
  spy.inner (service.taskRepo out.2)
    = (postgres.List q (spy.inner (service.taskRepo t))).2.
Proof.
  intros out. subst out.
  rewrite List_result, List_repo. simpl. unfold spy.noted.
  destruct (postgres.List q (spy.inner (service.taskRepo t))) as [a r].
  repeat split; reflexivity.
Qed.

End service_facts.

(** C1 (as amended).  The service keeps no listing cache: every listing
    request, a repeated one included, invokes the store's list operation
    exactly once and returns what the store answered. *)
Theorem List_always_reaches_store
    (R : Type) `{postgres.TaskRepository R}
    (q : rest.Query) (t : service.Svc (spy.Spy R)) :
  let out := service.List q t in
  spy.calls (service.taskRepo out.2)
    = spy.calls (service.taskRepo t) ++ [spy.CallList q] /\
  out.1 = (postgres.List q (spy.inner (service.taskRepo t))).1.
Proof.
  intros out. destruct (service_facts.List_spied q t) as (Hc & Hr & _).
  split; assumption.
Qed.

(** C1, the claim as written, fails: after a successful listing the same
    request is listed again, and the store's list operation is invoked
    a second time. *)
Lemma List_twice_reaches_store_twice :
  let first := service.List props.first_page props.sample_service in
  let second := service.List props.first_page first.2 in
  first.1.2 = None /\
  spy.calls (service.taskRepo first.2) = [spy.CallList props.first_page] /\
  spy.calls (service.taskRepo second.2)
    = [spy.CallList props.first_page; spy.CallList props.first_page].
Proof.
  vm_compute. repeat split; reflexivity.
Qed.



(** C4.  When the store's list operation returns an error, the service
    returns the store's whole answer, that error included, as it is; in
    particular the error is not replaced by [nil]. *)
Theorem List_propagates_store_error
    (R : Type) `{postgres.TaskRepository R}
    (q : rest.Query) (t : service.Svc R)
    (tasks : list entities.Task) (total : Z) (e : errors.error) (r : R) :
  postgres.List q (service.taskRepo t) = ((tasks, total, Some e), r) ->
  (service.List q t).1 = (tasks, total, Some e).
Proof.
  intros Hstore. rewrite service_facts.List_result, Hstore. reflexivity.
Qed.

Lemma List_propagates_store_error_witness :
  (service.List props.first_page (service.mkSvc props.broken_db props.no_metrics)).1
  = ([], 0, Some (errors.ErrDriver "connection refused")).
Proof.
  apply (List_propagates_store_error db.DB props.first_page
           (service.mkSvc props.broken_db props.no_metrics) [] 0
           (errors.ErrDriver "connection refused")
           (db.mkDB [props.t1; props.t2; props.t3] 4 200 [])).
  vm_compute. reflexivity.
Defined.

(** ** Creation: status defaulting and validation *)

Module http_facts.

Lemma IsValid_spec (s : entities.TaskStatus) :
  entities.IsValid s = true <->
  s = "pending" \/ s = "in_progress" \/ s = "done" \/ s = "canceled".
Proof.
  unfold entities.IsValid, entities.TaskStatusPending, entities.TaskStatusInProgress,
    entities.TaskStatusDone, entities.TaskStatusCanceled.
  destruct (String.eqb_spec s "pending"); [tauto|].
  destruct (String.eqb_spec s "in_progress"); [tauto|].
  destruct (String.eqb_spec s "done"); [tauto|].
  destruct (String.eqb_spec s "canceled"); [tauto|].
  split; [discriminate | tauto].
Qed.

Lemma bind_create_inr b req :
  http.ShouldBindJSON_create b = inr req -> b = http.Decoded req.
Proof.
  destruct b as [msg|r]; simpl; [discriminate|].
  destruct (_ ++ _); [|discriminate]. congruence.
Qed.

Lemma bind_create_ok (req : http.CreateTaskRequest) :
  http.c_Title req <> "" -> http.c_AssigneeID req <> 0 ->
  http.ShouldBindJSON_create (http.Decoded req) = inr req.
Proof.
  intros Ht Ha. simpl. unfold http.required_string, http.required_int.
  destruct (String.eqb_spec (http.c_Title req) ""); [contradiction|].
  destruct (Z.eqb_spec (http.c_AssigneeID req) 0); [contradiction|].
  reflexivity.
Qed.

Lemma failed_validation_shape (err : rest.BindError) :
  exists errs,
    @rest.GetFailedValidationResponse http.Payload err
    = rest.GetFailedResponseFromMessageAndErrors "validation error" errs.
Proof. unfold rest.GetFailedValidationResponse. eauto. Qed.

End http_facts.

(** C8.  For a create request observed through a recording stub of the
    service: (1) when the status is unset and the required fields are
    present, the entity handed to the service carries status "pending";
    (2) when the status is set to something other than the four
    enumerated values, the reply is 400 with the validation-failure
    envelope and the service (hence the store) is left exactly as it
    was, with no call recorded. *)
Theorem TaskCreate_status_rules
    (S : Type) `{service.TaskService S}
    (req : http.CreateTaskRequest) (h : spy.Spy S) :
  (http.c_Status req = "" ->
   http.c_Title req <> "" -> http.c_AssigneeID req <> 0 ->
   spy.calls (http.TaskCreate (http.Decoded req) h).2
   = spy.calls h
     ++ [spy.CallCreate
           (entities.mkTask 0 (http.c_Title req) (http.c_Description req)
              "pending" (http.c_AssigneeID req) 0 0)]) /\
  (http.c_Status req <> "" ->
   http.c_Status req <> "pending" -> http.c_Status req <> "in_progress" ->
   http.c_Status req <> "done" -> http.c_Status req <> "canceled" ->
   exists errs,
     http.TaskCreate (http.Decoded req) h
     = (http.JSON 400
          (rest.GetFailedResponseFromMessageAndErrors "validation error" errs), h)).
Proof.
  split.
  - intros Hunset Ht Ha. unfold http.TaskCreate.
    rewrite (http_facts.bind_create_ok req Ht Ha), Hunset. simpl.
    unfold spy.noted, http.create_entity. simpl.
    destruct (service.Create _ (spy.inner h)) as [[created err] s'].
    destruct err as [e|]; [reflexivity|]. destruct created; reflexivity.
  - intros Hset H1 H2 H3 H4. unfold http.TaskCreate.
    destruct (http.ShouldBindJSON_create (http.Decoded req)) as [err|req'] eqn:Hbind.
    + destruct (http_facts.failed_validation_shape err) as [errs Herrs].
      exists errs. rewrite Herrs. reflexivity.
    + apply http_facts.bind_create_inr in Hbind. injection Hbind as <-.
      destruct (String.eqb_spec (http.c_Status req) ""); [contradiction|].
      assert (entities.IsValid (http.c_Status req) = false) as ->.
      { destruct (entities.IsValid (http.c_Status req)) eqn:Hv; [|reflexivity].
        apply http_facts.IsValid_spec in Hv. intuition congruence. }
      simpl.
      destruct (http_facts.failed_validation_shape (rest.PlainError http.InvalidTaskStatus))
        as [errs Herrs].
      exists errs. rewrite Herrs. reflexivity.
Qed.

Lemma TaskCreate_status_rules_witness :
  (spy.calls
     (http.TaskCreate (http.Decoded (http.mkCreateReq "T4" "fourth" "" 9))
        (spy.mkSpy props.sample_service [])).2
   = [spy.CallCreate (entities.mkTask 0 "T4" "fourth" "pending" 9 0 0)]) /\
  (exists errs,
     http.TaskCreate (http.Decoded (http.mkCreateReq "T4" "fourth" "invalid status" 9))
       (spy.mkSpy props.sample_service [])
     = (http.JSON 400
          (rest.GetFailedResponseFromMessageAndErrors "validation error" errs),
        spy.mkSpy props.sample_service [])).
Proof.
  split.
  - apply (proj1 (TaskCreate_status_rules _
                    (http.mkCreateReq "T4" "fourth" "" 9)
                    (spy.mkSpy props.sample_service []))); simpl;
      [reflexivity | discriminate | lia].
  - apply (proj2 (TaskCreate_status_rules _
                    (http.mkCreateReq "T4" "fourth" "invalid status" 9)
                    (spy.mkSpy props.sample_service []))); simpl; discriminate.
Defined.

(** ** The repository on single tasks *)

Module repo_facts.

Import errors.

Lemma filter_split_length {A} (p : A -> bool) (l : list A) :
  (length (List.filter p l) + length (List.filter (fun x => negb (p x)) l))%nat
  = length l.
Proof.
  induction l as [|x l IH]; simpl; [reflexivity|].
  destruct (p x); simpl; lia.
Qed.

Lemma none_removed_iff {A} (p : A -> bool) (l : list A) :
  length (List.filter (fun x => negb (p x)) l) = length l <-> List.filter p l = [].
Proof.
  pose proof (filter_split_length p l) as Hlen.
  split; intros Heq.
  - destruct (List.filter p l); [reflexivity|simpl in Hlen; lia].
  - rewrite Heq in Hlen. simpl in Hlen. lia.
Qed.

Lemma filter_map_same {A} (p : A -> bool) (f : A -> A) (l : list A) :
  (forall x, p (f x) = p x) ->
  List.filter p (List.map f l) = List.map f (List.filter p l).
Proof.
  intros Hp. induction l as [|x l IH]; simpl; [reflexivity|].
  rewrite Hp. destruct (p x); simpl; congruence.
Qed.

Lemma lookup_map {A B} (f : A -> B) (l : list A) (i : nat) :
  List.map f l !! i = f <$> (l !! i).
Proof.
  revert i. induction l as [|x l IH]; intros [|i]; simpl; auto.
Qed.

Lemma begin_stmt_rows d : db.rows (db.begin_stmt d).2 = db.rows d.
Proof. unfold db.begin_stmt. destruct (db.faults d); reflexivity. Qed.

Lemma begin_stmt_now d : db.now (db.begin_stmt d).2 = db.now d.
Proof. unfold db.begin_stmt. destruct (db.faults d); reflexivity. Qed.

Lemma touch_ID t stamp r : entities.ID (props.touch t stamp r) = entities.ID r.
Proof. unfold props.touch. destruct (_ =? _); reflexivity. Qed.

(** [Update] in closed form. *)
Lemma Update_unfold (t : entities.Task) (d : db.DB) :
  postgres.Task.Update t d =
  match db.begin_stmt d with
  | (Some msg, d1) => ((None, Some (ErrDriver msg)), d1)
  | (None, d1) =>
      (match props.stored (entities.ID t) d1 with
       | None => (None, Some ErrTaskNotFound)
       | Some old => (Some (props.touch t (db.now d1) old), None)
       end,
       db.with_rows d1 (List.map (props.touch t (db.now d1)) (db.rows d1)))
  end.
Proof.
  unfold postgres.Task.Update, db.update_task, props.stored.
  destruct (db.begin_stmt d) as [[msg|] d1]; [reflexivity|].
  cbn [db.rows db.with_rows].
  change (fun r => if entities.ID r =? entities.ID t
                   then db.set_columns (entities.Title t) (entities.Description t)
                          (entities.Status t) (db.now d1) r
                   else r) with (props.touch t (db.now d1)).
  rewrite (filter_map_same (fun r => entities.ID r =? entities.ID t)).
  - destruct (List.filter _ (db.rows d1)); reflexivity.
  - intros r. rewrite touch_ID. reflexivity.
Qed.

Lemma stored_touched t stamp rows d :
  props.stored (entities.ID t) (db.with_rows d (List.map (props.touch t stamp) rows))
  = props.touch t stamp
      <$> head (List.filter (fun r => entities.ID r =? entities.ID t) rows).
Proof.
  unfold props.stored. cbn [db.rows db.with_rows].
  rewrite (filter_map_same (fun r => entities.ID r =? entities.ID t)).
  - destruct (List.filter _ rows); reflexivity.
  - intros r. rewrite touch_ID. reflexivity.
Qed.

Lemma stored_begin id d : props.stored id (db.begin_stmt d).2 = props.stored id d.
Proof. unfold props.stored. rewrite begin_stmt_rows. reflexivity. Qed.

End repo_facts.

(** C5.  (1) When the engine runs the lookup and no row has the id,
    [GetByID] returns [ErrTaskNotFound].  (2) [Delete] returns
    [ErrTaskNotFound] exactly when the engine ran the statement and no
    row was removed.  (3) A failure reported by the engine comes back
    from both operations as that failure, which is a different error
    value from [ErrTaskNotFound]. *)
Theorem NotFound_is_distinct (id : Z) (d : db.DB) :
  ((db.begin_stmt d).1 = None -> props.stored id d = None ->
   (postgres.Task.GetByID id d).1 = (None, Some errors.ErrTaskNotFound)) /\
  ((postgres.Task.Delete id d).1 = Some errors.ErrTaskNotFound <->
   (db.begin_stmt d).1 = None /\
   length (db.rows (postgres.Task.Delete id d).2) = length (db.rows d)) /\
  (forall msg, (db.begin_stmt d).1 = Some msg ->
   (postgres.Task.GetByID id d).1 = (None, Some (errors.ErrDriver msg)) /\
   (postgres.Task.Delete id d).1 = Some (errors.ErrDriver msg) /\
   errors.ErrDriver msg <> errors.ErrTaskNotFound).
Proof.
  unfold postgres.Task.GetByID, postgres.Task.Delete, db.select_by_id,
    db.delete_task, props.stored.
  pose proof (repo_facts.begin_stmt_rows d) as Hrows.
  destruct (db.begin_stmt d) as [[msg|] d1]; simpl in *; rewrite ?Hrows.
  - split; [discriminate|]. split.
    + split; [discriminate | intros [? _]; discriminate].
    + intros ? [= <-]. repeat split. discriminate.
  - split; [|split].
    + intros _ Hnone. destruct (List.filter _ (db.rows d)); [reflexivity|discriminate].
    + pose proof (repo_facts.none_removed_iff
                    (fun t => entities.ID t =? id) (db.rows d)) as Hiff.
      destruct (List.filter (fun t => entities.ID t =? id) (db.rows d)) as [|r l];
        simpl.
      * split; [intros _; split; [reflexivity | by apply Hiff] | reflexivity].
      * replace (Z.pos (Pos.of_succ_nat (length l)) =? 0) with false
          by (symmetry; apply Z.eqb_neq; lia).
        simpl. split; [discriminate | intros [_ Hlen]].
        apply Hiff in Hlen. discriminate.
    + discriminate.
Qed.

Lemma NotFound_is_distinct_witness :
  (postgres.Task.GetByID 99 props.sample_db).1 = (None, Some errors.ErrTaskNotFound) /\
  (postgres.Task.Delete 99 props.sample_db).1 = Some errors.ErrTaskNotFound /\
  (postgres.Task.GetByID 99 props.broken_db).1
  = (None, Some (errors.ErrDriver "connection refused")).
Proof.
  destruct (NotFound_is_distinct 99 props.sample_db) as (Hget & Hdel & _).
  destruct (NotFound_is_distinct 99 props.broken_db) as (_ & _ & Hother).
  split; [|split].
  - apply Hget; reflexivity.
  - apply Hdel. split; reflexivity.
  - apply (Hother "connection refused"). reflexivity.
Defined.

(** C10.  [Update] leaves the table with the same rows in the same
    places; every row keeps its id, assignee and creation time; rows
    other than the addressed one are untouched; after a successful
    update the addressed row carries the request's title, description
    and status and the statement's timestamp.  The entity returned is
    the persisted row, so its assignee is the stored one, and the
    assignee carried by the request has no influence at all. *)
Theorem Update_frame (t : entities.Task) (d : db.DB) :
  let out := postgres.Task.Update t d in
  length (db.rows out.2) = length (db.rows d) /\
  (forall (i : nat) (r : entities.Task), db.rows d !! i = Some r ->
     exists r', db.rows out.2 !! i = Some r' /\
       entities.ID r' = entities.ID r /\
       entities.AssigneeID r' = entities.AssigneeID r /\
       entities.CreatedAt r' = entities.CreatedAt r /\
       (entities.ID r <> entities.ID t -> r' = r) /\
       (entities.ID r = entities.ID t -> out.1.2 = None ->
          entities.Title r' = entities.Title t /\
          entities.Description r' = entities.Description t /\
          entities.Status r' = entities.Status t /\
          entities.UpdatedAt r' = db.now d)) /\
  (forall row, out.1.1 = Some row ->
     props.stored (entities.ID t) out.2 = Some row /\
     exists old, props.stored (entities.ID t) d = Some old /\
       entities.AssigneeID row = entities.AssigneeID old /\
       entities.ID row = entities.ID old /\
       entities.CreatedAt row = entities.CreatedAt old) /\
  (forall a, postgres.Task.Update (props.reassigned t a) d = out).
Proof.
  intros out.
  assert (forall a, postgres.Task.Update (props.reassigned t a) d = out) as Hassignee
    by (intros a; reflexivity).
  subst out. rewrite repo_facts.Update_unfold in *.
  pose proof (repo_facts.begin_stmt_rows d) as Hrows.
  pose proof (repo_facts.begin_stmt_now d) as Hnow.
  pose proof (repo_facts.stored_begin (entities.ID t) d) as Hstored.
  destruct (db.begin_stmt d) as [[msg|] d1]; cbn [fst snd] in Hrows, Hnow, Hstored.
  - cbn [fst snd]. rewrite Hrows. split; [reflexivity|]. split; [|split].
    + intros i r Hr. exists r. split; [exact Hr|].
      repeat split; try reflexivity; discriminate.
    + intros row [=].
    + exact Hassignee.
  - cbn [fst snd db.rows db.with_rows]. rewrite repo_facts.stored_touched.
    rewrite Hrows, Hnow, Hstored. split; [apply length_map|]. split; [|split].
    + intros i r Hr. exists (props.touch t (db.now d) r).
      rewrite repo_facts.lookup_map, Hr. split; [reflexivity|].
      unfold props.touch.
      destruct (Z.eqb_spec (entities.ID r) (entities.ID t)); simpl;
        repeat split; try reflexivity; try contradiction; congruence.
    + unfold props.stored.
      destruct (List.filter _ (db.rows d)) as [|old rest]; simpl; [intros row [=]|].
      intros row [= <-]. split; [reflexivity|].
      exists old. unfold props.touch.
      destruct (_ =? _); simpl; repeat split; reflexivity.
    + rewrite Hrows, Hnow, Hstored in Hassignee. exact Hassignee.
Qed.

Lemma Update_frame_witness :
  let request := entities.mkTask 1 "T1 again" "changed" "done" 42 0 0 in
  let out := postgres.Task.Update request props.sample_db in
  out.1.2 = None /\
  db.rows out.2
  = [entities.mkTask 1 "T1 again" "changed" "done" 5 100 200; props.t2; props.t3] /\
  exists r', db.rows out.2 !! 0%nat = Some r' /\ entities.AssigneeID r' = 5.
Proof.
  intros request out.
  split; [reflexivity|]. split; [reflexivity|].
  destruct (Update_frame request props.sample_db) as (_ & Hrow & _).
  destruct (Hrow 0%nat props.t1 eq_refl) as (r' & Hr' & _ & Ha & _).
  exists r'. split; [exact Hr' | exact Ha].
Defined.

(** ** The repository's listing *)

Module list_facts.

Import errors.

Lemma fold_List_step (l : list (string * string)) c0 a0 i0 :
  foldl postgres.Task.List_step (c0, a0, i0) l
  = (c0 ++ props.conds_from i0 (props.recognised l),
     a0 ++ props.args_of (props.recognised l),
     i0 + Z.of_nat (length (props.recognised l))).
Proof.
  revert c0 a0 i0. induction l as [|[f v] l IH]; intros c0 a0 i0; simpl.
  - rewrite !app_nil_r, Z.add_0_r. reflexivity.
  - unfold props.recognised in *. simpl.
    destruct (postgres.Task.is_filter_column f); simpl.
    + rewrite IH, <- !app_assoc. simpl. f_equal. lia.
    + apply IH.
Qed.

Lemma bound_at (pre : list db.arg) (a : db.arg) (post : list db.arg) :
  db.bound (pre ++ a :: post) (Z.of_nat (length pre) + 1) = Some a.
Proof.
  unfold db.bound.
  destruct (Z.leb_spec (Z.of_nat (length pre) + 1) 0); [lia|].
  replace (Z.to_nat (Z.of_nat (length pre) + 1 - 1)) with (length pre) by lia.
  rewrite nth_error_app2 by lia. rewrite Nat.sub_diag. reflexivity.
Qed.

(** The accumulated conditions, evaluated against the accumulated
    arguments, say that the row agrees with every recognised entry. *)
Lemma where_conds_from (es : list (string * string)) pre extra t :
  db.where_ (props.conds_from (Z.of_nat (length pre) + 1) es)
    (pre ++ props.args_of es ++ extra) t
  = forallb (fun kv : string * string => db.col_eq kv.1 (db.ArgString kv.2) t) es.
Proof.
  revert pre. induction es as [|[f v] es IH]; intros pre; simpl; [reflexivity|].
  unfold db.holds. simpl. rewrite bound_at. f_equal.
  specialize (IH (pre ++ [db.ArgString v])).
  rewrite length_app in IH. simpl in IH.
  replace (Z.of_nat (length pre + 1) + 1) with (Z.of_nat (length pre) + 1 + 1)
    in IH by lia.
  rewrite <- app_assoc in IH. exact IH.
Qed.

Lemma forallb_recognised (l : list (string * string)) t :
  forallb (fun kv : string * string => db.col_eq kv.1 (db.ArgString kv.2) t)
    (props.recognised l)
  = forallb (fun kv : string * string =>
               negb (postgres.Task.is_filter_column kv.1)
               || db.col_eq kv.1 (db.ArgString kv.2) t) l.
Proof.
  unfold props.recognised. induction l as [|[f v] l IH]; simpl; [reflexivity|].
  destruct (postgres.Task.is_filter_column f); simpl; rewrite IH; reflexivity.
Qed.

Lemma forallb_perm {A} (p : A -> bool) (l l' : list A) :
  l ≡ₚ l' -> forallb p l = forallb p l'.
Proof.
  induction 1 as [|x l l' _ IH|x y l|l l' l'' _ IH1 _ IH2]; simpl.
  - reflexivity.
  - by rewrite IH.
  - destruct (p x), (p y); reflexivity.
  - congruence.
Qed.

Lemma recognised_match (F : gmap string string) order t :
  order ≡ₚ map_to_list F ->
  forallb (fun kv : string * string => db.col_eq kv.1 (db.ArgString kv.2) t)
    (props.recognised order)
  = props.exact_match F t.
Proof.
  intros Hperm. rewrite forallb_recognised. unfold props.exact_match.
  by apply forallb_perm.
Qed.

(** A row passes exactly when it agrees with every entry stored
    under one of the three filter columns. *)
Lemma exact_match_spec (F : gmap string string) (t : entities.Task) :
  props.exact_match F t = true <->
  forall f v, F !! f = Some v -> postgres.Task.is_filter_column f = true ->
              db.col_eq f (db.ArgString v) t = true.
Proof.
  unfold props.exact_match. rewrite forallb_forall. split.
  - intros Hall f v Hfv Hcol.
    specialize (Hall (f, v)). simpl in Hall. rewrite Hcol in Hall. simpl in Hall.
    apply Hall. apply list_elem_of_In. by apply elem_of_map_to_list.
  - intros Hall [f v] Hin. simpl.
    apply list_elem_of_In, elem_of_map_to_list in Hin.
    destruct (postgres.Task.is_filter_column f) eqn:Hcol; simpl; [|reflexivity].
    by apply (Hall f v).
Qed.

Lemma exact_match_columns (F : gmap string string) (t : entities.Task) :
  props.exact_match F t = true <->
  (forall v, F !! "title" = Some v -> entities.Title t = v) /\
  (forall v, F !! "status" = Some v -> entities.Status t = v) /\
  (forall v, F !! "assignee_id" = Some v ->
             db.arg_int (db.ArgString v) = Some (entities.AssigneeID t)).
Proof.
  rewrite exact_match_spec. split.
  - intros Hall. repeat split; intros v Hv.
    + specialize (Hall _ _ Hv eq_refl). vm_compute in Hall.
      change (String.eqb (entities.Title t) v = true) in Hall.
      by apply String.eqb_eq.
    + specialize (Hall _ _ Hv eq_refl).
      change (String.eqb (entities.Status t) v = true) in Hall.
      by apply String.eqb_eq.
    + specialize (Hall _ _ Hv eq_refl).
      change (db.int_eq (entities.AssigneeID t) (db.ArgString v) = true) in Hall.
      unfold db.int_eq in Hall.
      destruct (db.arg_int (db.ArgString v)); [|discriminate].
      apply Z.eqb_eq in Hall. congruence.
  - intros (Ht & Hs & Ha) f v Hfv Hcol.
    unfold postgres.Task.is_filter_column in Hcol.
    destruct (String.eqb_spec f "status") as [->|Hn1].
    { change (String.eqb (entities.Status t) v = true).
      apply String.eqb_eq. by apply Hs. }
    destruct (String.eqb_spec f "assignee_id") as [->|Hn2].
    { change (db.int_eq (entities.AssigneeID t) (db.ArgString v) = true).
      unfold db.int_eq. rewrite (Ha _ Hfv). apply Z.eqb_refl. }
    destruct (String.eqb_spec f "title") as [->|Hn3]; [|discriminate].
    change (String.eqb (entities.Title t) v = true).
    apply String.eqb_eq. by apply Ht.
Qed.

Lemma placeholder_limit (pre : list db.arg) (a b : Z) :
  db.placeholder_int (pre ++ [db.ArgInt a; db.ArgInt b]) (Z.of_nat (length pre) + 1) = a.
Proof. unfold db.placeholder_int. rewrite bound_at. reflexivity. Qed.

Lemma placeholder_offset (pre : list db.arg) (a b : Z) :
  db.placeholder_int (pre ++ [db.ArgInt a; db.ArgInt b])
    (Z.of_nat (length pre) + 1 + 1) = b.
Proof.
  unfold db.placeholder_int.
  change (pre ++ [db.ArgInt a; db.ArgInt b])
    with (pre ++ [db.ArgInt a] ++ db.ArgInt b :: []).
  rewrite app_assoc.
  replace (Z.of_nat (length pre) + 1 + 1)
    with (Z.of_nat (length (pre ++ [db.ArgInt a])) + 1)
    by (rewrite length_app; simpl; lia).
  rewrite bound_at. reflexivity.
Qed.

(** [List], for whatever order the filter entries are visited in, is
    the paginated listing of the rows that pass [exact_match], with
    limit [PerPage] and offset [(Page - 1) * PerPage] in machine
    arithmetic. *)
Lemma List_in_listing (q : rest.Query) (order : list (string * string)) (d : db.DB) :
  order ≡ₚ map_to_list (rest.Filter q) ->
  postgres.Task.List_in order q d
  = props.listing (props.exact_match (rest.Filter q)) (rest.QPerPage q)
      (goint.mul (goint.sub (rest.QPage q) 1) (rest.QPerPage q)) d.
Proof.
  intros Hperm. unfold postgres.Task.List_in, props.listing.
  rewrite fold_List_step. cbn [app].
  set (es := props.recognised order).
  set (S := rest.QPerPage q).
  set (off := goint.mul (goint.sub (rest.QPage q) 1) S).
  assert (forall extra t,
            db.where_ (props.conds_from 1 es) (props.args_of es ++ extra) t
            = props.exact_match (rest.Filter q) t) as Hwhere.
  { intros extra t.
    rewrite <- (recognised_match (rest.Filter q) order t Hperm).
    apply (where_conds_from es [] extra t). }
  assert (forall t,
            db.where_ (props.conds_from 1 es) (props.args_of es) t
            = props.exact_match (rest.Filter q) t) as Hwhere0.
  { intros t. rewrite <- (Hwhere [] t), app_nil_r. reflexivity. }
  assert (length (props.args_of es) = length es) as Hlen
    by (unfold props.args_of; apply length_map).
  unfold db.count_tasks, db.select_tasks, db.matching.
  destruct (db.begin_stmt d) as [[msg|] d1]; [reflexivity|].
  destruct (db.begin_stmt d1) as [[msg|] d2]; [reflexivity|].
  rewrite (filter_ext _ _ Hwhere0).
  rewrite (filter_ext _ _ (Hwhere [db.ArgInt S; db.ArgInt off])).
  replace (1 + Z.of_nat (length es))
    with (Z.of_nat (length (props.args_of es)) + 1) by lia.
  rewrite placeholder_limit, placeholder_offset.
  reflexivity.
Qed.

Lemma List_listing (q : rest.Query) (d : db.DB) :
  postgres.Task.List q d
  = props.listing (props.exact_match (rest.Filter q)) (rest.QPerPage q)
      (goint.mul (goint.sub (rest.QPage q) 1) (rest.QPerPage q)) d.
Proof. unfold postgres.Task.List. by apply List_in_listing. Qed.

(** The order in which the runtime visits the filter map does not
    show in the result. *)
Lemma List_order_irrelevant (q : rest.Query) order (d : db.DB) :
  order ≡ₚ map_to_list (rest.Filter q) ->
  postgres.Task.List_in order q d = postgres.Task.List q d.
Proof. intros Hperm. by rewrite List_listing, List_in_listing. Qed.

Lemma listing_ext keep keep' perPage offset d :
  (forall t, keep t = keep' t) ->
  props.listing keep perPage offset d = props.listing keep' perPage offset d.
Proof.
  intros Hext. unfold props.listing.
  destruct (db.begin_stmt d) as [[msg|] d1]; [reflexivity|].
  destruct (db.begin_stmt d1) as [[msg|] d2]; [reflexivity|].
  rewrite !(filter_ext _ _ Hext). reflexivity.
Qed.

(** A successful listing, taken apart. *)
Lemma listing_success keep perPage offset d tasks total d' :
  props.listing keep perPage offset d = ((tasks, total, None), d') ->
  tasks = firstn (Z.to_nat perPage)
            (skipn (Z.to_nat offset) (List.filter keep (db.rows d))) /\
  total = Z.of_nat (length (List.filter keep (db.rows d))).
Proof.
  unfold props.listing.
  pose proof (repo_facts.begin_stmt_rows d) as Hr1.
  destruct (db.begin_stmt d) as [[msg|] d1]; [discriminate|].
  pose proof (repo_facts.begin_stmt_rows d1) as Hr2.
  destruct (db.begin_stmt d1) as [[msg|] d2]; [discriminate|].
  simpl in Hr1, Hr2. rewrite Hr2, Hr1. intros [= <- <- _]. split; reflexivity.
Qed.

Lemma mul_sub_in_range (page perPage : Z) :
  goint.MinInt64 <= page - 1 <= goint.MaxInt64 ->
  goint.MinInt64 <= (page - 1) * perPage <= goint.MaxInt64 ->
  goint.mul (goint.sub page 1) perPage = (page - 1) * perPage.
Proof.
  unfold goint.mul, goint.sub, goint.wrap, goint.MinInt64, goint.MaxInt64.
  intros H1 H2.
  assert (forall z, - 2 ^ 63 <= z <= 2 ^ 63 - 1 ->
                    (z + 2 ^ 63) mod 2 ^ 64 - 2 ^ 63 = z) as Hwrap.
  { intros z Hz. rewrite Z.mod_small; lia. }
  rewrite (Hwrap (page - 1) H1). apply Hwrap. exact H2.
Qed.

End list_facts.

(** C6 (as amended).  When [List] succeeds, the tasks it returns are the
    [PerPage] rows found after skipping [offset] of the rows that pass
    the filter, where [offset] is [(Page - 1) * PerPage] in 64-bit
    wrap-around arithmetic, equal to the exact product whenever
    [Page - 1] and the product fit in 64 bits; for a non-negative page
    size at most [PerPage] tasks are returned; and the total is the
    number of rows that pass the filter, the same for every page and
    page size. *)
Theorem List_pagination (q : rest.Query) (d d' : db.DB)
    (tasks : list entities.Task) (total : Z) :
  postgres.Task.List q d = ((tasks, total, None), d') ->
  let matching := List.filter (props.exact_match (rest.Filter q)) (db.rows d) in
  let offset := goint.mul (goint.sub (rest.QPage q) 1) (rest.QPerPage q) in
  tasks = firstn (Z.to_nat (rest.QPerPage q)) (skipn (Z.to_nat offset) matching) /\
  (goint.in_range (rest.QPage q - 1) ->
   goint.in_range ((rest.QPage q - 1) * rest.QPerPage q) ->
   offset = (rest.QPage q - 1) * rest.QPerPage q) /\
  (0 <= rest.QPerPage q -> Z.of_nat (length tasks) <= rest.QPerPage q) /\
  total = Z.of_nat (length matching) /\
  (forall page perPage tasks2 total2 d2,
     postgres.Task.List (props.page_of (rest.Filter q) page perPage) d
     = ((tasks2, total2, None), d2) ->
     total2 = total).
Proof.
  intros Hok matching offset.
  rewrite list_facts.List_listing in Hok.
  apply list_facts.listing_success in Hok as [Htasks Htotal].
  fold matching in Htasks, Htotal. fold offset in Htasks.
  split; [exact Htasks|]. split; [|split; [|split]].
  - intros H1 H2. apply list_facts.mul_sub_in_range; assumption.
  - intros Hpos. rewrite Htasks, length_firstn. lia.
  - exact Htotal.
  - intros page perPage tasks2 total2 d2 Hok2.
    rewrite list_facts.List_listing in Hok2.
    apply list_facts.listing_success in Hok2 as [_ Htotal2].
    rewrite Htotal, Htotal2. reflexivity.
Qed.

Lemma List_pagination_witness :
  (postgres.Task.List (props.page_of {[ "status" := "done" ]} 2 1) props.sample_db).1
  = ([props.t3], 2, None) /\
  goint.mul (goint.sub 2 1) 1 = (2 - 1) * 1.
Proof.
  pose (q := props.page_of {[ "status" := "done" ]} 2 1).
  destruct (List_pagination q props.sample_db props.sample_db [props.t3] 2)
    as (_ & Hoff & _); [vm_compute; reflexivity|].
  split; [vm_compute; reflexivity|].
  apply Hoff; vm_compute; split; discriminate.
Defined.

(** C6, the claim as written, fails where the product leaves the 64-bit
    range: for page 4611686018427387905 and page size 4 the exact
    offset is 2^64, far past the three rows of the table, yet the rows
    returned are those at offset 0. *)
Lemma List_offset_overflow :
  let P := 4611686018427387905 in
  let S := 4 in
  let out := postgres.Task.List (props.page_of ∅ P S) props.sample_db in
  out.1 = ([props.t1; props.t2; props.t3], 3, None) /\
  out.1.1.1 <>
    firstn (Z.to_nat S)
      (skipn (Z.to_nat ((P - 1) * S))
         (List.filter (props.exact_match ∅) (db.rows props.sample_db))).
Proof.
  intros P S out.
  assert (out.1 = ([props.t1; props.t2; props.t3], 3, None)) as Hout
    by (vm_compute; reflexivity).
  split; [exact Hout|]. rewrite Hout. cbn [fst].
  assert (List.filter (props.exact_match ∅) (db.rows props.sample_db)
          = [props.t1; props.t2; props.t3]) as -> by (vm_compute; reflexivity).
  rewrite skipn_all2.
  - rewrite firstn_nil. discriminate.
  - cbn [length]. subst P S. lia.
Qed.



(** ** The query key encoder *)

Module keyenc_facts.

Import keyenc.

Lemma has_char_app c a b :
  has_char c (a +:+ b) = has_char c a || has_char c b.
Proof.
  induction a as [|x a IH]; simpl; [reflexivity|].
  rewrite IH, orb_assoc. reflexivity.
Qed.

(** Two strings cut at their first occurrence of [c] agree piecewise. *)
Lemma cut_unique c a a' r r' :
  has_char c a = false -> has_char c a' = false ->
  a +:+ String c r = a' +:+ String c r' -> a = a' /\ r = r'.
Proof.
  revert a'. induction a as [|x a IH]; intros [|y a'] Ha Ha' Heq;
    simpl in *.
  - injection Heq as ->. split; reflexivity.
  - injection Heq as <- _. rewrite Ascii.eqb_refl in Ha'. discriminate.
  - injection Heq as -> _. rewrite Ascii.eqb_refl in Ha. discriminate.
  - injection Heq as -> Heq.
    apply orb_false_elim in Ha as [_ Ha]. apply orb_false_elim in Ha' as [_ Ha'].
    destruct (IH a' Ha Ha' Heq) as [-> ->]. split; reflexivity.
Qed.

Lemma no_cut c a a' r :
  has_char c a = false -> a <> a' +:+ String c r.
Proof.
  intros Ha Heq. rewrite Heq, has_char_app in Ha. simpl in Ha.
  rewrite Ascii.eqb_refl, orb_true_r in Ha. discriminate.
Qed.

Lemma pretty_N_char_numeric x : numeric_char (pretty_N_char x) = true.
Proof. unfold pretty_N_char. repeat case_match; reflexivity. Qed.

Lemma not_numeric c x : numeric_char c = false -> Ascii.eqb x c = true -> numeric_char x = false.
Proof. intros Hc Hx. apply Ascii.eqb_eq in Hx. by subst. Qed.

Lemma has_char_numeric c x s :
  numeric_char c = false -> numeric_char x = true ->
  has_char c (String x s) = has_char c s.
Proof.
  intros Hc Hx. cbn [has_char].
  destruct (Ascii.eqb x c) eqn:Heq; [|reflexivity].
  apply (not_numeric c _ Hc) in Heq. congruence.
Qed.

Lemma pretty_N_go_free c x s :
  numeric_char c = false -> has_char c (pretty_N_go x s) = has_char c s.
Proof.
  intros Hc. revert s. induction (N.lt_wf_0 x) as [x _ IH]; intros s.
  assert (x = 0 \/ 0 < x)%N as [->|Hpos] by lia.
  - by rewrite pretty_N_go_0.
  - rewrite pretty_N_go_step by done. rewrite IH by (by apply N.div_lt).
    apply has_char_numeric; [exact Hc | apply pretty_N_char_numeric].
Qed.

Lemma pretty_N_free c (x : N) :
  numeric_char c = false -> has_char c (pretty x) = false.
Proof.
  intros Hc. unfold pretty, pretty_N. case_decide.
  - by rewrite has_char_numeric.
  - by rewrite pretty_N_go_free.
Qed.

(** Decimal renderings are made of digits and the minus sign only. *)
Lemma pretty_Z_free c (z : Z) :
  numeric_char c = false -> has_char c (pretty z) = false.
Proof.
  intros Hc. destruct z as [|p|p].
  - change (has_char c (String "0" EmptyString) = false).
    by rewrite has_char_numeric.
  - apply (pretty_N_free c (Npos p) Hc).
  - change (has_char c (String "-" (@pretty N _ (Npos p))) = false).
    rewrite has_char_numeric by done. apply (pretty_N_free c (Npos p) Hc).
Qed.

(** *** Joining tokens *)

Lemma concat_cons2 sep x y l :
  String.concat sep (x :: y :: l) = x +:+ sep +:+ String.concat sep (y :: l).
Proof. reflexivity. Qed.

Lemma concat_one_cons2 c x y l :
  String.concat (one c) (x :: y :: l) = x +:+ String c (String.concat (one c) (y :: l)).
Proof. reflexivity. Qed.

Lemma app_assoc_string (a b d : string) : (a +:+ b) +:+ d = a +:+ (b +:+ d).
Proof.
  induction a as [|x a IH]; [reflexivity|].
  change (String x ((a +:+ b) +:+ d) = String x (a +:+ (b +:+ d))).
  f_equal. exact IH.
Qed.

Lemma concat_app sep xs y ys :
  String.concat sep (xs ++ y :: ys) = lead sep xs +:+ String.concat sep (y :: ys).
Proof.
  induction xs as [|x xs IH]; [reflexivity|].
  change ((x :: xs) ++ y :: ys) with (x :: (xs ++ y :: ys)).
  destruct xs as [|x' xs].
  - cbn [app]. rewrite concat_cons2. cbn [lead foldr].
    rewrite !app_assoc_string. reflexivity.
  - change ((x' :: xs) ++ y :: ys) with (x' :: (xs ++ y :: ys)) in *.
    rewrite concat_cons2, IH.
    change (lead sep (x :: x' :: xs)) with (x +:+ sep +:+ lead sep (x' :: xs)).
    rewrite !app_assoc_string. reflexivity.
Qed.

(** Joining is injective on non-empty lists of tokens free of the
    separator character. *)
Lemma concat_inj c (l1 l2 : list string) :
  l1 <> [] -> l2 <> [] ->
  Forall (fun s => has_char c s = false) l1 ->
  Forall (fun s => has_char c s = false) l2 ->
  String.concat (one c) l1 = String.concat (one c) l2 -> l1 = l2.
Proof.
  revert l2. induction l1 as [|x l1 IH]; intros l2 Hne1 Hne2 Hf1 Hf2 Heq;
    [contradiction|].
  destruct l2 as [|y l2]; [contradiction|].
  apply Forall_cons in Hf1 as [Hx Hf1]. apply Forall_cons in Hf2 as [Hy Hf2].
  destruct l1 as [|x' l1], l2 as [|y' l2].
  - simpl in Heq. by subst.
  - rewrite concat_one_cons2 in Heq. simpl in Heq.
    exfalso. by eapply (no_cut c x).
  - rewrite concat_one_cons2 in Heq. simpl in Heq.
    exfalso. symmetry in Heq. by eapply (no_cut c y).
  - rewrite !concat_one_cons2 in Heq.
    apply cut_unique in Heq as [-> Heq]; [|assumption..].
    f_equal. apply IH; try assumption; discriminate.
Qed.

(** *** Sorting the keys *)

Lemma sorted_keys_unique (l1 l2 : list string) :
  l1 ≡ₚ l2 -> merge_sort String.le l1 = merge_sort String.le l2.
Proof.
  intros Hperm. apply (StronglySorted_unique String.le).
  - apply StronglySorted_merge_sort; apply _.
  - apply StronglySorted_merge_sort; apply _.
  - by rewrite !merge_sort_Permutation.
Qed.

Lemma sorted_keys_elem (F : gmap string string) k :
  k ∈ merge_sort String.le ((map_to_list F).*1) <-> is_Some (F !! k).
Proof.
  rewrite merge_sort_Permutation, list_elem_of_fmap. split.
  - intros [[k' v] [-> Hin]]. apply elem_of_map_to_list in Hin. by exists v.
  - intros [v Hv]. exists (k, v). split; [reflexivity|].
    by apply elem_of_map_to_list.
Qed.

(** *** Entries *)

Lemma pair_text_free c F k v :
  c <> "="%char -> F !! k = Some v ->
  has_char c k = false -> has_char c v = false ->
  has_char c (pair_text F k) = false.
Proof.
  intros Hc Hkv Hk Hv. unfold pair_text. rewrite Hkv.
  change (default "" (Some v)) with v.
  rewrite has_char_app, Hk.
  change (has_char c ("=" +:+ v)) with (Ascii.eqb "="%char c || has_char c v).
  rewrite Hv.
  destruct (Ascii.eqb_spec "="%char c); [congruence|reflexivity].
Qed.

Lemma pair_text_inj F1 F2 k1 k2 :
  has_char "="%char k1 = false -> has_char "="%char k2 = false ->
  pair_text F1 k1 = pair_text F2 k2 ->
  k1 = k2 /\ default "" (F1 !! k1) = default "" (F2 !! k2).
Proof.
  intros H1 H2 Heq. unfold pair_text in Heq.
  change ("=" +:+ ?s) with (String "="%char s) in Heq.
  by apply (cut_unique "="%char).
Qed.

Lemma pairs_inj F1 F2 (ks1 ks2 : list string) :
  Forall (fun k => has_char "="%char k = false) ks1 ->
  Forall (fun k => has_char "="%char k = false) ks2 ->
  pair_text F1 <$> ks1 = pair_text F2 <$> ks2 ->
  ks1 = ks2 /\ Forall (fun k => default "" (F1 !! k) = default "" (F2 !! k)) ks1.
Proof.
  revert ks2. induction ks1 as [|k1 ks1 IH]; intros [|k2 ks2] Hf1 Hf2 Heq;
    try discriminate.
  - split; [reflexivity|constructor].
  - apply Forall_cons in Hf1 as [Hk1 Hf1]. apply Forall_cons in Hf2 as [Hk2 Hf2].
    rewrite !fmap_cons in Heq. injection Heq as Hhead Htail.
    apply pair_text_inj in Hhead as [-> Hval]; [|assumption..].
    destruct (IH ks2 Hf1 Hf2 Htail) as [-> Hall].
    split; [reflexivity|]. by constructor.
Qed.

End keyenc_facts.

Module keyenc_props.

Import keyenc keyenc_facts.

Lemma encode_order sep (F : gmap string string) (P S : Z) (order : list string) :
  order ≡ₚ (map_to_list F).*1 -> encode_in sep order F P S = encode sep F P S.
Proof.
  intros Hperm. unfold encode, encode_in.
  by rewrite (sorted_keys_unique _ _ Hperm).
Qed.

Lemma encode_page_inj c (F : gmap string string) (P S P' S' : Z) :
  numeric_char c = false ->
  encode (one c) F P S = encode (one c) F P' S' -> P = P' /\ S = S'.
Proof.
  intros Hc. unfold encode, encode_in. rewrite !concat_app.
  intros Heq. apply (inj (String.append _)) in Heq.
  rewrite !concat_one_cons2 in Heq. cbn [String.concat] in Heq.
  apply cut_unique in Heq as [HP HS]; [|by apply pretty_Z_free..].
  split; by apply (inj pretty).
Qed.

Lemma tokens_free c (F : gmap string string) (P S : Z) :
  numeric_char c = false -> c <> "="%char -> clean c F ->
  Forall (fun s => has_char c s = false)
    ((pair_text F <$> merge_sort String.le ((map_to_list F).*1))
       ++ [pretty P; pretty S]).
Proof.
  intros Hc Heq Hclean. apply Forall_app. split.
  - apply Forall_fmap, Forall_forall. intros k Hk.
    apply sorted_keys_elem in Hk as [v Hv].
    destruct (Hclean k v Hv) as (Hk1 & _ & Hv1).
    by apply (pair_text_free c F k v).
  - repeat constructor; by apply pretty_Z_free.
Qed.

Lemma keys_equal_free c (F : gmap string string) :
  clean c F ->
  Forall (fun k => has_char "="%char k = false)
    (merge_sort String.le ((map_to_list F).*1)).
Proof.
  intros Hclean. apply Forall_forall. intros k Hk.
  apply sorted_keys_elem in Hk as [v Hv].
  by destruct (Hclean k v Hv) as (_ & Hk1 & _).
Qed.

Lemma encode_inj c (F1 F2 : gmap string string) (P1 S1 P2 S2 : Z) :
  numeric_char c = false -> c <> "="%char -> clean c F1 -> clean c F2 ->
  encode (one c) F1 P1 S1 = encode (one c) F2 P2 S2 ->
  F1 = F2 /\ P1 = P2 /\ S1 = S2.
Proof.
  intros Hc Heq Hc1 Hc2 Henc. unfold encode, encode_in in Henc.
  apply (concat_inj c) in Henc.
  - apply app_inj_2 in Henc as [Hpairs Hps]; [|reflexivity].
    injection Hps as HP HS.
    apply (inj pretty) in HP. apply (inj pretty) in HS.
    split; [|split; assumption].
    apply pairs_inj in Hpairs as [Hkeys Hvals];
      [|by eapply keys_equal_free..].
    apply map_eq. intros k.
    destruct (F1 !! k) as [v1|] eqn:H1.
    + assert (k ∈ merge_sort String.le ((map_to_list F1).*1)) as Hin
        by (apply sorted_keys_elem; eauto).
      rewrite Forall_forall in Hvals. specialize (Hvals k Hin).
      rewrite Hkeys in Hin. apply sorted_keys_elem in Hin as [v2 H2].
      rewrite H1, H2 in Hvals. simpl in Hvals. congruence.
    + destruct (F2 !! k) as [v2|] eqn:H2; [|reflexivity].
      assert (k ∈ merge_sort String.le ((map_to_list F2).*1)) as Hin
        by (apply sorted_keys_elem; eauto).
      rewrite <- Hkeys in Hin. apply sorted_keys_elem in Hin as [v1 Hv1].
      congruence.
  - by destruct (pair_text F1 <$> _).
  - by destruct (pair_text F2 <$> _).
  - by apply tokens_free.
  - by apply tokens_free.
Qed.

(** Whatever the separator, a value that contains it makes a one-entry
    filter collide with a two-entry one. *)
Lemma collision sep (P S : Z) :
  encode sep {[ "a" := ("1" +:+ sep +:+ "b=2")%string ]} P S
  = encode sep {[ "a" := "1"; "b" := "2" ]} P S.
Proof.
  unfold encode, encode_in.
  rewrite map_to_list_singleton.
  assert (merge_sort String.le
            ((map_to_list ({[ "a" := "1"; "b" := "2" ]} : gmap string string)).*1)
          = ["a"; "b"]) as -> by (vm_compute; reflexivity).
  change (merge_sort String.le [("a", ("1" +:+ sep +:+ "b=2")%string)].*1)
    with ["a"].
  assert (pair_text {[ "a" := "1"; "b" := "2" ]} <$> ["a"; "b"] = ["a=1"; "b=2"])
    as -> by (vm_compute; reflexivity).
  assert (pair_text {[ "a" := ("1" +:+ sep +:+ "b=2")%string ]} <$> ["a"]
          = [String "a" (String "=" (String "1" (sep +:+ "b=2")))]) as ->.
  { cbn [fmap list_fmap]. unfold pair_text. rewrite lookup_singleton_eq.
    reflexivity. }
  cbn [app].
  rewrite (concat_cons2 sep _ (pretty P) [pretty S]).
  rewrite (concat_cons2 sep "a=1" "b=2" _), (concat_cons2 sep "b=2" (pretty P) _).
  set (T := String.concat sep [pretty P; pretty S]).
  transitivity ("a=1" +:+ ((sep +:+ "b=2") +:+ (sep +:+ T)))%string;
    [reflexivity|].
  f_equal. apply app_assoc_string.
Qed.

End keyenc_props.

(** C3 (as amended).  For the encoder of the design text joined with a
    one-character separator: (1) the key does not depend on the order in
    which the filter entries are met; (2) when the separator is neither
    a digit nor the minus sign, keys for one filter-set differ whenever
    page or page size differ; (3) when moreover the separator is not
    ["="], no filter key contains ["="] or the separator and no filter
    value contains the separator, keys differ whenever the filter-set,
    the page or the page size differs. *)
Theorem encode_deterministic_and_distinct :
  (forall sep (F : gmap string string) (P S : Z) (order : list string),
     order ≡ₚ (map_to_list F).*1 ->
     keyenc.encode_in sep order F P S = keyenc.encode sep F P S) /\
  (forall c (F : gmap string string) (P S P' S' : Z),
     keyenc.numeric_char c = false ->
     P <> P' \/ S <> S' ->
     keyenc.encode (keyenc.one c) F P S <> keyenc.encode (keyenc.one c) F P' S') /\
  (forall c (F1 F2 : gmap string string) (P1 S1 P2 S2 : Z),
     keyenc.numeric_char c = false -> c <> "="%char ->
     keyenc.clean c F1 -> keyenc.clean c F2 ->
     F1 <> F2 \/ P1 <> P2 \/ S1 <> S2 ->
     keyenc.encode (keyenc.one c) F1 P1 S1 <> keyenc.encode (keyenc.one c) F2 P2 S2).
Proof.
  split; [|split].
  - intros sep F P S order. apply keyenc_props.encode_order.
  - intros c F P S P' S' Hc Hdiff Heq.
    apply keyenc_props.encode_page_inj in Heq as [-> ->]; [|exact Hc].
    destruct Hdiff; congruence.
  - intros c F1 F2 P1 S1 P2 S2 Hc Hne H1 H2 Hdiff Heq.
    apply keyenc_props.encode_inj in Heq as (-> & -> & ->); try assumption.
    destruct Hdiff as [|[|]]; congruence.
Qed.

Lemma encode_deterministic_and_distinct_witness :
  keyenc.encode_in "|" ["title"; "status"] {[ "status" := "done"; "title" := "T1" ]} 1 20
  = keyenc.encode "|" {[ "status" := "done"; "title" := "T1" ]} 1 20 /\
  keyenc.encode (keyenc.one "|") {[ "status" := "done" ]} 1 20
  <> keyenc.encode (keyenc.one "|") {[ "status" := "done" ]} 2 20.
Proof.
  destruct encode_deterministic_and_distinct as (Hdet & Hpage & _).
  split.
  - apply Hdet. vm_compute. apply perm_swap.
  - apply Hpage; [reflexivity | left; discriminate].
Defined.

(** C3, the claim as written, fails for the encoder of the design text:
    with separator ["|"], the one-entry filter [a = "1|b=2"] and the
    two-entry filter [a = "1", b = "2"] are encoded to the same key; and
    no choice of separator makes the encoder distinct on all filters. *)
Lemma encode_collision :
  keyenc.encode "|" {[ "a" := "1|b=2" ]} 1 20 = "a=1|b=2|1|20" /\
  keyenc.encode "|" {[ "a" := "1"; "b" := "2" ]} 1 20 = "a=1|b=2|1|20" /\
  ({[ "a" := "1|b=2" ]} : gmap string string) <> {[ "a" := "1"; "b" := "2" ]} /\
  ~ exists sep, forall (F1 F2 : gmap string string) (P1 S1 P2 S2 : Z),
      F1 <> F2 \/ P1 <> P2 \/ S1 <> S2 ->
      keyenc.encode sep F1 P1 S1 <> keyenc.encode sep F2 P2 S2.
Proof.
  split; [vm_compute; reflexivity|]. split; [vm_compute; reflexivity|]. split.
  - intros Heq. apply (f_equal (fun m : gmap string string => m !! "b")) in Heq.
    vm_compute in Heq. discriminate.
  - intros [sep Hdistinct].
    apply (Hdistinct {[ "a" := ("1" +:+ sep +:+ "b=2")%string ]}
             {[ "a" := "1"; "b" := "2" ]} 1 20 1 20).
    + left. intros Heq.
      apply (f_equal (fun m : gmap string string => m !! "b")) in Heq.
      rewrite lookup_singleton_ne in Heq by discriminate.
      vm_compute in Heq. discriminate.
    + apply keyenc_props.collision.
Qed.


(** ** Worked scenarios *)

(** An update request that names another assignee: the reply and the
    persisted row both keep the stored assignee. *)
Example TaskUpdate_keeps_assignee :
  let h := service.mkSvc props.sample_db props.no_metrics in
  let out :=
    http.TaskUpdate "1"
      (http.Decoded (http.mkUpdateReq "T1 again" "changed" "done" 42)) h in
  out.1 = http.JSON 200
            (rest.GetSuccessResponse
               (http.OneTask (http.mkTaskResponse 1 "T1 again" "changed" "done" 5 100 200)))
  /\ props.stored 1 (service.taskRepo out.2)
     = Some (entities.mkTask 1 "T1 again" "changed" "done" 5 100 200).
Proof. vm_compute. split; reflexivity. Qed.

(** Create a task, list it twice, rename it, list, delete it, list:
    every listing shows the table as it stands, and each of the four
    listings is one [List] call on the store. *)
Example create_list_update_delete :
  let h0 := service.mkSvc (spy.mkSpy props.empty_db []) props.no_metrics in
  let created := http.TaskCreate (http.Decoded (http.mkCreateReq "T1" "" "" 5)) h0 in
  let list1 := service.List props.first_page created.2 in
  let list2 := service.List props.first_page list1.2 in
  let updated :=
    http.TaskUpdate "1" (http.Decoded (http.mkUpdateReq "T2" "" "pending" 5)) list2.2 in
  let list3 := service.List props.first_page updated.2 in
  let deleted := http.TaskDelete "1" list3.2 in
  let list4 := service.List props.first_page deleted.2 in
  list1.1 = ([entities.mkTask 1 "T1" "" "pending" 5 100 100], 1, None) /\
  list2.1 = list1.1 /\
  list3.1 = ([entities.mkTask 1 "T2" "" "pending" 5 100 100], 1, None) /\
  deleted.1 = http.StatusOnly 204 /\
  list4.1 = ([], 0, None) /\
  length (List.filter (fun c => match c with spy.CallList _ => true | _ => false end)
            (spy.calls (service.taskRepo list4.2))) = 4%nat.
Proof. vm_compute. repeat split; reflexivity. Qed.

(** * Further properties of the code *)

(** ** The repository: closed forms and the shape of the table *)

Module repo_more.

Import errors.

Lemma begin_same d : inv.same_data d (db.begin_stmt d).2.
Proof. unfold inv.same_data, db.begin_stmt. destruct (db.faults d); repeat split. Qed.

Lemma begin_eq d f d1 :
  db.begin_stmt d = (f, d1) ->
  db.rows d1 = db.rows d /\ db.next_id d1 = db.next_id d /\ db.now d1 = db.now d.
Proof. intros Hb. pose proof (begin_same d) as Hs. rewrite Hb in Hs. exact Hs. Qed.

Lemma same_data_trans d1 d2 d3 :
  inv.same_data d1 d2 -> inv.same_data d2 d3 -> inv.same_data d1 d3.
Proof. unfold inv.same_data. intros (? & ? & ?) (? & ? & ?). repeat split; congruence. Qed.

Lemma Create_unfold (t : entities.Task) (d : db.DB) :
  postgres.Task.Create t d =
  match db.begin_stmt d with
  | (Some msg, d1) => ((None, Some (ErrDriver msg)), d1)
  | (None, d1) =>
      let c := inv.created t (db.next_id d1) (db.now d1) in
      ((Some c, None),
       db.mkDB (db.rows d1 ++ [c]) (db.next_id d1 + 1) (db.now d1) (db.faults d1))
  end.
Proof.
  unfold postgres.Task.Create, db.insert_task.
  destruct (db.begin_stmt d) as [[msg|] d1]; reflexivity.
Qed.

Lemma GetByID_unfold (id : Z) (d : db.DB) :
  postgres.Task.GetByID id d =
  match db.begin_stmt d with
  | (Some msg, d1) => ((None, Some (ErrDriver msg)), d1)
  | (None, d1) =>
      (match props.stored id d1 with
       | Some r => (Some r, None)
       | None => (None, Some ErrTaskNotFound)
       end, d1)
  end.
Proof.
  unfold postgres.Task.GetByID, db.select_by_id, props.stored.
  destruct (db.begin_stmt d) as [[msg|] d1]; [reflexivity|].
  destruct (List.filter _ (db.rows d1)); reflexivity.
Qed.

Lemma Delete_unfold (id : Z) (d : db.DB) :
  postgres.Task.Delete id d =
  match db.begin_stmt d with
  | (Some msg, d1) => (Some (ErrDriver msg), d1)
  | (None, d1) =>
      (match props.stored id d1 with
       | Some _ => None
       | None => Some ErrTaskNotFound
       end,
       db.with_rows d1 (List.filter (fun t => negb (entities.ID t =? id)) (db.rows d1)))
  end.
Proof.
  unfold postgres.Task.Delete, db.delete_task, props.stored.
  destruct (db.begin_stmt d) as [[msg|] d1]; [reflexivity|].
  cbn [db.RowsAffected].
  destruct (List.filter (fun t => entities.ID t =? id) (db.rows d1)) as [|r l];
    [reflexivity|].
  cbn [length head].
  replace (Z.of_nat (S (length l)) =? 0) with false
    by (symmetry; apply Z.eqb_neq; lia).
  reflexivity.
Qed.

Lemma stored_same d d' id : db.rows d' = db.rows d -> props.stored id d' = props.stored id d.
Proof. unfold props.stored. intros ->. reflexivity. Qed.

Lemma filter_none {A} (p : A -> bool) (l : list A) :
  List.filter p l = [] <-> Forall (fun x => p x = false) l.
Proof.
  induction l as [|x l IH]; simpl.
  - split; [constructor | reflexivity].
  - destruct (p x) eqn:Hp.
    + split; [discriminate|]. intros H. apply Forall_cons in H as [H _]. congruence.
    + rewrite IH. split; [by constructor | by intros [_ H]%Forall_cons].
Qed.

Lemma stored_none id d :
  props.stored id d = None <-> Forall (fun r => entities.ID r <> id) (db.rows d).
Proof.
  unfold props.stored.
  assert (head (List.filter (fun t => entities.ID t =? id) (db.rows d)) = None
          <-> List.filter (fun t => entities.ID t =? id) (db.rows d) = []) as ->.
  { destruct (List.filter _ _); split; (reflexivity || discriminate). }
  rewrite filter_none. apply Forall_iff. intros r. apply Z.eqb_neq.
Qed.

Lemma stored_Some id d r :
  props.stored id d = Some r -> In r (db.rows d) /\ entities.ID r = id.
Proof.
  unfold props.stored. intros Hh.
  assert (In r (List.filter (fun t => entities.ID t =? id) (db.rows d))) as Hin.
  { destruct (List.filter _ _) as [|x l]; [discriminate|].
    injection Hh as ->. left. reflexivity. }
  apply filter_In in Hin as [Hin Hid]. split; [exact Hin|]. by apply Z.eqb_eq.
Qed.

Lemma map_touch_absent t stamp (rows : list entities.Task) :
  Forall (fun r => entities.ID r <> entities.ID t) rows ->
  List.map (props.touch t stamp) rows = rows.
Proof.
  induction 1 as [|r rows Hr _ IH]; simpl; [reflexivity|].
  rewrite IH. unfold props.touch.
  destruct (Z.eqb_spec (entities.ID r) (entities.ID t)); [contradiction|reflexivity].
Qed.

Lemma map_touch_ids t stamp (rows : list entities.Task) :
  List.map entities.ID (List.map (props.touch t stamp) rows) = List.map entities.ID rows.
Proof.
  induction rows as [|r rows IH]; simpl; [reflexivity|].
  rewrite IH, repo_facts.touch_ID. reflexivity.
Qed.

Lemma filter_filter_imp {A} (p q : A -> bool) (l : list A) :
  (forall x, p x = true -> q x = true) ->
  List.filter p (List.filter q l) = List.filter p l.
Proof.
  intros Himp. induction l as [|x l IH]; simpl; [reflexivity|].
  destruct (q x) eqn:Hq; simpl.
  - rewrite IH. reflexivity.
  - destruct (p x) eqn:Hp; [|exact IH]. apply Himp in Hp. congruence.
Qed.

Lemma NoDup_map_filter {A B} (f : A -> B) (p : A -> bool) (l : list A) :
  NoDup (List.map f l) -> NoDup (List.map f (List.filter p l)).
Proof.
  induction l as [|x l IH]; simpl; intros Hnd; [constructor|].
  apply NoDup_cons in Hnd as [Hx Hnd].
  destruct (p x); simpl; [|by apply IH].
  apply NoDup_cons. split; [|by apply IH].
  intros Hin. apply Hx. apply list_elem_of_In in Hin. apply list_elem_of_In.
  apply in_map_iff in Hin as (y & Hy & Hin). apply in_map_iff.
  exists y. split; [exact Hy|]. by apply filter_In in Hin as [Hin _].
Qed.

Lemma Forall_filter_keep {A} (P : A -> Prop) (p : A -> bool) (l : list A) :
  Forall P l -> Forall P (List.filter p l).
Proof.
  induction 1 as [|x l Hx _ IH]; simpl; [constructor|].
  destruct (p x); [by constructor | exact IH].
Qed.

(** [List] in closed form keeps the data. *)
Lemma listing_same keep perPage offset d :
  inv.same_data d (props.listing keep perPage offset d).2.
Proof.
  unfold props.listing.
  pose proof (begin_same d) as H1.
  destruct (db.begin_stmt d) as [[msg|] d1]; [exact H1|].
  pose proof (begin_same d1) as H2.
  destruct (db.begin_stmt d1) as [[msg|] d2]; cbn [snd] in *;
    by apply (same_data_trans d d1 d2).
Qed.

Lemma wf_same d d' : inv.same_data d d' -> inv.wf d -> inv.wf d'.
Proof. unfold inv.wf. intros (-> & -> & _). tauto. Qed.

End repo_more.

(** X1.  Round trip of creation: on a well-formed table, the entity a
    successful [Create] returns carries the request's title,
    description, status and assignee with the id and timestamps the
    store assigned, and a following [GetByID] for that id, when the
    engine runs it, returns exactly that entity. *)
Theorem Create_then_GetByID (t c : entities.Task) (d d1 : db.DB) :
  inv.wf d ->
  postgres.Task.Create t d = ((Some c, None), d1) ->
  inv.runs d1 ->
  c = inv.created t (db.next_id d) (db.now d) /\
  (postgres.Task.GetByID (entities.ID c) d1).1 = (Some c, None).
Proof.
  intros [_ Hbelow] Hcreate Hruns.
  rewrite repo_more.Create_unfold in Hcreate.
  destruct (db.begin_stmt d) as [[msg|] d0] eqn:Hb; [discriminate|].
  apply repo_more.begin_eq in Hb as (Hrows & Hnext & Hnow).
  cbn zeta in Hcreate. injection Hcreate as <- <-.
  split; [by rewrite Hnext, Hnow|].
  rewrite repo_more.GetByID_unfold.
  unfold inv.runs in Hruns.
  destruct (db.begin_stmt _) as [[msg|] d2] eqn:Hb2; [discriminate|].
  apply repo_more.begin_eq in Hb2 as (Hrows2 & _ & _).
  cbn [fst]. unfold props.stored. rewrite Hrows2. cbn [db.rows].
  rewrite List.filter_app, Hrows.
  assert (List.filter
            (fun r => entities.ID r
                      =? entities.ID (inv.created t (db.next_id d0) (db.now d0)))
            (db.rows d) = []) as ->.
  { apply repo_more.filter_none. eapply Forall_impl; [exact Hbelow|].
    intros r Hr. apply Z.eqb_neq. simpl in *. lia. }
  simpl. rewrite Z.eqb_refl. reflexivity.
Qed.

Lemma Create_then_GetByID_witness :
  let c := entities.mkTask 4 "T4" "fourth" "pending" 9 200 200 in
  c = inv.created (entities.mkTask 0 "T4" "fourth" "pending" 9 0 0) 4 200 /\
  (postgres.Task.GetByID 4
     (postgres.Task.Create (entities.mkTask 0 "T4" "fourth" "pending" 9 0 0)
        props.sample_db).2).1 = (Some c, None).
Proof.
  intros c.
  apply (Create_then_GetByID (entities.mkTask 0 "T4" "fourth" "pending" 9 0 0) c
           props.sample_db
           (postgres.Task.Create (entities.mkTask 0 "T4" "fourth" "pending" 9 0 0)
              props.sample_db).2).
  - split.
    + vm_compute. repeat constructor; rewrite ?elem_of_cons, ?elem_of_nil; intuition discriminate.
    + repeat constructor.
  - reflexivity.
  - reflexivity.
Defined.

(** X2.  What [Create] does to the table: on success exactly one row,
    the returned entity, is appended and the sequence advances by one;
    on failure no entity is returned, the data is as before, and the
    error is never [ErrTaskNotFound]. *)
Theorem Create_outcome (t : entities.Task) (d : db.DB) :
  let out := postgres.Task.Create t d in
  (out.1.2 = None ->
   out.1.1 = Some (inv.created t (db.next_id d) (db.now d)) /\
   db.rows out.2 = db.rows d ++ [inv.created t (db.next_id d) (db.now d)] /\
   db.next_id out.2 = db.next_id d + 1) /\
  (forall e, out.1.2 = Some e ->
   out.1.1 = None /\ inv.same_data d out.2 /\ e <> errors.ErrTaskNotFound).
Proof.
  intros out. subst out. rewrite repo_more.Create_unfold.
  pose proof (repo_more.begin_same d) as Hsame.
  destruct (db.begin_stmt d) as [[msg|] d1]; cbn [fst snd] in *.
  - split; [discriminate|]. intros e [= <-]. repeat split; try apply Hsame.
    discriminate.
  - destruct Hsame as (Hrows & Hnext & Hnow). cbn zeta. cbn [fst snd db.rows db.next_id].
    rewrite Hrows, Hnext, Hnow. split; [repeat split|discriminate].
Qed.

Lemma Create_outcome_witness :
  db.rows (postgres.Task.Create (entities.mkTask 0 "T4" "" "done" 9 0 0)
             props.sample_db).2
  = db.rows props.sample_db
      ++ [inv.created (entities.mkTask 0 "T4" "" "done" 9 0 0) 4 200] /\
  inv.same_data props.broken_db
    (postgres.Task.Create (entities.mkTask 0 "T4" "" "done" 9 0 0) props.broken_db).2.
Proof.
  split.
  - apply (proj1 (Create_outcome (entities.mkTask 0 "T4" "" "done" 9 0 0)
                    props.sample_db)). reflexivity.
  - apply (proj2 (Create_outcome (entities.mkTask 0 "T4" "" "done" 9 0 0)
                    props.broken_db) (errors.ErrDriver "connection refused")).
    reflexivity.
Defined.

(** X3.  Well-formedness of the table (ids pairwise different, all
    below the sequence) is kept by every repository operation, whether
    it succeeds or fails. *)
Theorem wf_preserved (t : entities.Task) (id : Z) (q : rest.Query) (d : db.DB) :
  inv.wf d ->
  inv.wf (postgres.Task.Create t d).2 /\
  inv.wf (postgres.Task.Update t d).2 /\
  inv.wf (postgres.Task.Delete id d).2 /\
  inv.wf (postgres.Task.GetByID id d).2 /\
  inv.wf (postgres.Task.List q d).2.
Proof.
  intros Hwf.
  pose proof (repo_more.begin_same d) as Hsame.
  assert (inv.wf (db.begin_stmt d).2) as Hwf1 by (by eapply repo_more.wf_same).
  split; [|split; [|split; [|split]]].
  - rewrite repo_more.Create_unfold.
    destruct (db.begin_stmt d) as [[msg|] d1]; cbn [snd] in *; [exact Hwf1|].
    destruct Hwf1 as [Hnd Hbelow]. unfold inv.wf. cbn [db.rows db.next_id].
    split.
    + rewrite map_app. cbn [List.map]. apply NoDup_app. split; [exact Hnd|].
      split; [|apply NoDup_singleton].
      intros x Hx Hin. apply list_elem_of_singleton in Hin. subst x.
      apply list_elem_of_In, in_map_iff in Hx as (r & Hr & Hin).
      rewrite Forall_forall in Hbelow. apply list_elem_of_In in Hin.
      specialize (Hbelow r Hin). simpl in Hr. lia.
    + apply Forall_app. split.
      * eapply Forall_impl; [exact Hbelow|]. intros r Hr. simpl in Hr. lia.
      * constructor; [simpl; lia|constructor].
  - rewrite repo_facts.Update_unfold.
    destruct (db.begin_stmt d) as [[msg|] d1]; cbn [snd] in *; [exact Hwf1|].
    destruct Hwf1 as [Hnd Hbelow]. unfold inv.wf. cbn [db.rows db.with_rows db.next_id].
    split; [by rewrite repo_more.map_touch_ids|].
    apply Forall_forall. intros r Hin.
    apply list_elem_of_In, in_map_iff in Hin as (r0 & <- & Hin).
    rewrite repo_facts.touch_ID. rewrite Forall_forall in Hbelow.
    apply Hbelow. by apply list_elem_of_In.
  - rewrite repo_more.Delete_unfold.
    destruct (db.begin_stmt d) as [[msg|] d1]; cbn [snd] in *; [exact Hwf1|].
    destruct Hwf1 as [Hnd Hbelow]. unfold inv.wf. cbn [db.rows db.with_rows db.next_id].
    split; [by apply repo_more.NoDup_map_filter | by apply repo_more.Forall_filter_keep].
  - rewrite repo_more.GetByID_unfold.
    destruct (db.begin_stmt d) as [[msg|] d1]; exact Hwf1.
  - rewrite list_facts.List_listing.
    eapply repo_more.wf_same; [apply repo_more.listing_same|exact Hwf].
Qed.

Lemma wf_preserved_witness :
  inv.wf (postgres.Task.Create props.t1 props.sample_db).2 /\
  inv.wf (postgres.Task.Delete 2 props.sample_db).2.
Proof.
  assert (inv.wf props.sample_db) as Hwf.
  { split.
    - vm_compute. repeat constructor; rewrite ?elem_of_cons, ?elem_of_nil; intuition discriminate.
    - repeat constructor. }
  destruct (wf_preserved props.t1 2 props.first_page props.sample_db Hwf)
    as (Hc & _ & Hd & _).
  split; assumption.
Defined.

(** X4.  After a successful [Delete] no row with that id is left and
    the rows with other ids are kept as they were; so, when the engine
    runs them, a following [GetByID] and a second [Delete] for the same
    id both return [ErrTaskNotFound]. *)
Theorem Delete_then_gone (id : Z) (d : db.DB) :
  (postgres.Task.Delete id d).1 = None ->
  let d1 := (postgres.Task.Delete id d).2 in
  props.stored id d1 = None /\
  db.rows d1 = List.filter (fun r => negb (entities.ID r =? id)) (db.rows d) /\
  (forall id', id' <> id -> props.stored id' d1 = props.stored id' d) /\
  (inv.runs d1 ->
   (postgres.Task.GetByID id d1).1 = (None, Some errors.ErrTaskNotFound) /\
   (postgres.Task.Delete id d1).1 = Some errors.ErrTaskNotFound).
Proof.
  intros Hok d1. subst d1. rewrite repo_more.Delete_unfold in *.
  destruct (db.begin_stmt d) as [[msg|] d0] eqn:Hb; [discriminate|].
  apply repo_more.begin_eq in Hb as (Hrows & _ & _).
  cbn [fst snd] in *. clear Hok.
  set (d1 := db.with_rows d0 _).
  assert (db.rows d1 = List.filter (fun r => negb (entities.ID r =? id)) (db.rows d))
    as Hrows1 by (subst d1; cbn [db.rows db.with_rows]; by rewrite Hrows).
  assert (props.stored id d1 = None) as Hgone.
  { apply repo_more.stored_none. rewrite Hrows1. apply Forall_forall.
    intros r Hin. apply list_elem_of_In, filter_In in Hin as [_ Hne].
    apply negb_true_iff, Z.eqb_neq in Hne. exact Hne. }
  split; [exact Hgone|]. split; [exact Hrows1|]. split.
  - intros id' Hne. unfold props.stored. rewrite Hrows1.
    rewrite repo_more.filter_filter_imp; [reflexivity|].
    intros r Hr. apply Z.eqb_eq in Hr. apply negb_true_iff, Z.eqb_neq. congruence.
  - intros Hruns. unfold inv.runs in Hruns.
    rewrite repo_more.GetByID_unfold, repo_more.Delete_unfold.
    destruct (db.begin_stmt d1) as [[msg|] d2] eqn:Hb2; [discriminate|].
    apply repo_more.begin_eq in Hb2 as (Hrows2 & _ & _).
    cbn [fst]. rewrite (repo_more.stored_same d1 d2 id Hrows2), Hgone.
    split; reflexivity.
Qed.

Lemma Delete_then_gone_witness :
  let d1 := (postgres.Task.Delete 2 props.sample_db).2 in
  props.stored 2 d1 = None /\
  db.rows d1 = [props.t1; props.t3] /\
  (postgres.Task.Delete 2 d1).1 = Some errors.ErrTaskNotFound.
Proof.
  intros d1.
  destruct (Delete_then_gone 2 props.sample_db eq_refl) as (Hgone & Hrows & _ & Hagain).
  split; [exact Hgone|]. split; [exact Hrows|].
  apply Hagain. reflexivity.
Defined.

(** X5.  An [Update] addressed to an id that has no row, when the
    engine runs it, returns no entity and [ErrTaskNotFound], and leaves
    every row as it was. *)
Theorem Update_missing (t : entities.Task) (d : db.DB) :
  inv.runs d ->
  props.stored (entities.ID t) d = None ->
  (postgres.Task.Update t d).1 = (None, Some errors.ErrTaskNotFound) /\
  inv.same_data d (postgres.Task.Update t d).2.
Proof.
  intros Hruns Hnone. unfold inv.runs in Hruns.
  rewrite repo_facts.Update_unfold.
  destruct (db.begin_stmt d) as [[msg|] d1] eqn:Hb; [discriminate|].
  apply repo_more.begin_eq in Hb as (Hrows & Hnext & Hnow).
  cbn [fst snd].
  rewrite (repo_more.stored_same d d1 _ Hrows), Hnone. split; [reflexivity|].
  unfold inv.same_data. cbn [db.rows db.with_rows db.next_id db.now].
  rewrite Hrows. split; [|split; assumption].
  apply repo_more.map_touch_absent. by apply repo_more.stored_none.
Qed.

Lemma Update_missing_witness :
  (postgres.Task.Update (entities.mkTask 99 "ghost" "" "done" 1 0 0) props.sample_db).1
  = (None, Some errors.ErrTaskNotFound) /\
  inv.same_data props.sample_db
    (postgres.Task.Update (entities.mkTask 99 "ghost" "" "done" 1 0 0) props.sample_db).2.
Proof.
  apply (Update_missing (entities.mkTask 99 "ghost" "" "done" 1 0 0) props.sample_db);
    reflexivity.
Defined.

(** X6.  Round trip of an update: the entity a successful [Update]
    returns has the request's id, title, description and status and the
    statement's timestamp, and a following [GetByID] for that id, when
    the engine runs it, returns that same entity. *)
Theorem Update_then_GetByID (t row : entities.Task) (d d1 : db.DB) :
  postgres.Task.Update t d = ((Some row, None), d1) ->
  (entities.ID row = entities.ID t /\
   entities.Title row = entities.Title t /\
   entities.Description row = entities.Description t /\
   entities.Status row = entities.Status t /\
   entities.UpdatedAt row = db.now d) /\
  (inv.runs d1 -> (postgres.Task.GetByID (entities.ID t) d1).1 = (Some row, None)).
Proof.
  rewrite repo_facts.Update_unfold.
  destruct (db.begin_stmt d) as [[msg|] d0] eqn:Hb; [discriminate|].
  apply repo_more.begin_eq in Hb as (Hrows & _ & Hnow).
  destruct (props.stored (entities.ID t) d0) as [old|] eqn:Hold; [|discriminate].
  intros [= <- <-]. split.
  - apply repo_more.stored_Some in Hold as [_ Hid].
    unfold props.touch. rewrite Hid, Z.eqb_refl. simpl. rewrite Hnow. tauto.
  - intros Hruns. unfold inv.runs in Hruns. rewrite repo_more.GetByID_unfold.
    destruct (db.begin_stmt _) as [[msg|] d2] eqn:Hb2; [discriminate|].
    apply repo_more.begin_eq in Hb2 as (Hrows2 & _ & _).
    cbn [fst]. rewrite (repo_more.stored_same _ d2 _ Hrows2).
    rewrite repo_facts.stored_touched. fold (props.stored (entities.ID t) d0).
    rewrite Hold. reflexivity.
Qed.

Lemma Update_then_GetByID_witness :
  let t := entities.mkTask 2 "T2 done" "closed" "canceled" 42 0 0 in
  let row := entities.mkTask 2 "T2 done" "closed" "canceled" 7 101 200 in
  (postgres.Task.GetByID 2 (postgres.Task.Update t props.sample_db).2).1
  = (Some row, None).
Proof.
  intros t row.
  apply (proj2 (Update_then_GetByID t row props.sample_db
                  (postgres.Task.Update t props.sample_db).2 eq_refl)).
  reflexivity.
Defined.

(** X7.  The two read operations never write: after [GetByID] or
    [List], successful or not, the rows, the sequence and the clock are
    what they were. *)
Theorem reads_do_not_write (id : Z) (q : rest.Query) (d : db.DB) :
  inv.same_data d (postgres.Task.GetByID id d).2 /\
  inv.same_data d (postgres.Task.List q d).2.
Proof.
  split.
  - rewrite repo_more.GetByID_unfold. pose proof (repo_more.begin_same d) as Hs.
    destruct (db.begin_stmt d) as [[msg|] d1]; exact Hs.
  - rewrite list_facts.List_listing. apply repo_more.listing_same.
Qed.

(** ** The repository's listing, continued *)

Module list_more.

Lemma filter_sublist {A} (p : A -> bool) (l : list A) : List.filter p l `sublist_of` l.
Proof.
  induction l as [|x l IH]; simpl; [constructor|].
  destruct (p x); by constructor.
Qed.

Lemma window_sublist {A} (p : A -> bool) (n m : nat) (l : list A) :
  firstn n (skipn m (List.filter p l)) `sublist_of` l.
Proof.
  etrans; [apply sublist_take|]. etrans; [apply sublist_drop|]. apply filter_sublist.
Qed.

Lemma window_In {A} (p : A -> bool) (n m : nat) (l : list A) (x : A) :
  In x (firstn n (skipn m (List.filter p l))) -> In x l /\ p x = true.
Proof.
  intros Hin. apply filter_In.
  apply list_elem_of_In. apply list_elem_of_In in Hin.
  eapply elem_of_sublist; [exact Hin|].
  etrans; [apply sublist_take|]. apply sublist_drop.
Qed.

(** An error of the listing, taken apart. *)
Lemma listing_failure keep perPage offset d tasks total e d' :
  props.listing keep perPage offset d = ((tasks, total, Some e), d') ->
  tasks = [] /\ total = 0 /\ exists msg, e = errors.ErrDriver msg.
Proof.
  unfold props.listing.
  destruct (db.begin_stmt d) as [[msg|] d1].
  - intros [= <- <- <- _]. eauto.
  - destruct (db.begin_stmt d1) as [[msg|] d2]; [|discriminate].
    intros [= <- <- <- _]. eauto.
Qed.

End list_more.

(** X8.  Go leaves the visiting order of a map unspecified; whatever
    order the runtime picks for the filter entries, [List] returns the
    same tasks, total, error and database state. *)
Theorem List_any_order (q : rest.Query) (order : list (string * string)) (d : db.DB) :
  order ≡ₚ map_to_list (rest.Filter q) ->
  postgres.Task.List_in order q d = postgres.Task.List q d.
Proof. apply list_facts.List_order_irrelevant. Qed.

Lemma List_any_order_witness :
  postgres.Task.List_in [("assignee_id", "5"); ("status", "done")]
    (props.page_of (list_to_map [("status", "done"); ("assignee_id", "5")]) 1 20)
    props.sample_db
  = postgres.Task.List
      (props.page_of (list_to_map [("status", "done"); ("assignee_id", "5")]) 1 20)
      props.sample_db.
Proof.
  apply (List_any_order
           (props.page_of (list_to_map [("status", "done"); ("assignee_id", "5")]) 1 20)).
  cbn [rest.Filter props.page_of].
  rewrite map_to_list_to_map; [apply perm_swap|].
  vm_compute. repeat constructor; rewrite ?elem_of_cons, ?elem_of_nil; intuition discriminate.
Defined.

(** X9.  A successful listing returns only stored rows that agree with
    the filter, in table order and without repetition beyond the
    table's own, and never more of them than the total it reports,
    which in turn never exceeds the number of rows. *)
Theorem List_results_sound (q : rest.Query) (d d' : db.DB)
    (tasks : list entities.Task) (total : Z) :
  postgres.Task.List q d = ((tasks, total, None), d') ->
  (forall t, In t tasks -> In t (db.rows d) /\ props.exact_match (rest.Filter q) t = true) /\
  tasks `sublist_of` db.rows d /\
  Z.of_nat (length tasks) <= total <= Z.of_nat (length (db.rows d)).
Proof.
  intros Hok. rewrite list_facts.List_listing in Hok.
  apply list_facts.listing_success in Hok as [-> ->].
  split; [|split; [|split]].
  - intros t. apply list_more.window_In.
  - apply list_more.window_sublist.
  - apply inj_le. rewrite length_take, length_drop. lia.
  - apply inj_le. apply sublist_length, list_more.filter_sublist.
Qed.

Lemma List_results_sound_witness :
  [props.t3] `sublist_of` db.rows props.sample_db /\
  (forall t, In t [props.t3] -> In t (db.rows props.sample_db) /\
             props.exact_match {[ "status" := "done" ]} t = true).
Proof.
  destruct (List_results_sound (props.page_of {[ "status" := "done" ]} 2 1)
              props.sample_db props.sample_db [props.t3] 2)
    as (Hin & Hsub & _); [vm_compute; reflexivity|].
  split; [exact Hsub | exact Hin].
Defined.



(** X11.  Edges of pagination.  The repository applies no defaults of
    its own: a successful listing with page size 0 (the zero-valued
    query) returns no task and still the full total; and a page that
    starts at or past the total returns no task. *)
Theorem List_empty_pages (q : rest.Query) (d d' : db.DB)
    (tasks : list entities.Task) (total : Z) :
  postgres.Task.List q d = ((tasks, total, None), d') ->
  (rest.QPerPage q = 0 -> tasks = []) /\
  (1 <= rest.QPage q <= goint.MaxInt64 -> 0 <= rest.QPerPage q ->
   (rest.QPage q - 1) * rest.QPerPage q <= goint.MaxInt64 ->
   total <= (rest.QPage q - 1) * rest.QPerPage q -> tasks = []) /\
  total = Z.of_nat (length (List.filter (props.exact_match (rest.Filter q)) (db.rows d))).
Proof.
  intros Hok. rewrite list_facts.List_listing in Hok.
  apply list_facts.listing_success in Hok as [-> ->].
  split; [|split; [|reflexivity]].
  - intros ->. reflexivity.
  - intros HP HS Hfit Hpast.
    rewrite list_facts.mul_sub_in_range;
      try (unfold goint.MinInt64, goint.MaxInt64 in *; nia).
    rewrite drop_ge by lia. apply take_nil.
Qed.

Lemma List_empty_pages_witness :
  (postgres.Task.List (rest.mkQuery ∅ (rest.mkMeta 0 0 0 0)) props.sample_db).1.1.1 = [].
Proof.
  destruct (List_empty_pages (rest.mkQuery ∅ (rest.mkMeta 0 0 0 0))
              props.sample_db props.sample_db
              (postgres.Task.List (rest.mkQuery ∅ (rest.mkMeta 0 0 0 0))
                 props.sample_db).1.1.1 3) as (Hzero & _ & _);
    [vm_compute; reflexivity|].
  apply Hzero. reflexivity.
Defined.

(** X12.  A listing never reports "not found": whenever [List] returns
    an error, it is a failure reported by the engine, and it comes with
    no task and total 0, even when the count had already succeeded.  An
    empty result is a success. *)
Theorem List_error_shape (q : rest.Query) (d d' : db.DB)
    (tasks : list entities.Task) (total : Z) (e : errors.error) :
  postgres.Task.List q d = ((tasks, total, Some e), d') ->
  tasks = [] /\ total = 0 /\ exists msg, e = errors.ErrDriver msg.
Proof.
  intros Herr. rewrite list_facts.List_listing in Herr.
  by apply list_more.listing_failure in Herr.
Qed.

Lemma List_error_shape_witness :
  exists msg,
    (postgres.Task.List props.first_page
       (db.mkDB [props.t1] 2 0 [None; Some "timeout"])).1
    = ([], 0, Some (errors.ErrDriver msg)).
Proof.
  destruct (List_error_shape props.first_page
              (db.mkDB [props.t1] 2 0 [None; Some "timeout"])
              (db.mkDB [props.t1] 2 0 [])
              [] 0 (errors.ErrDriver "timeout") eq_refl) as (_ & _ & msg & Hmsg).
  exists msg. rewrite <- Hmsg. reflexivity.
Defined.

(** ** The service, continued *)

Module service_more.

Lemma run_op_metrics {R : Type} `{postgres.TaskRepository R}
    (op : inv.Op) (s : service.Svc R) :
  let out := inv.run_op op s in
  monitoring.TasksCount (service.metrics out.2)
  = monitoring.TasksCount (service.metrics s)
    + (if inv.successful_create (op, out.1) then 1 else 0) /\
  monitoring.RequestLatency (service.metrics out.2)
  = monitoring.RequestLatency (service.metrics s) ++ [inv.labels_of (op, out.1)].
Proof.
  destruct op as [t|t|id|q|id]; simpl.
  - unfold service.Task.Create.
    destruct (postgres.Create t (service.taskRepo s)) as [[c [e|]] r]; simpl;
      split; (lia || reflexivity).
  - unfold service.Task.Update.
    destruct (postgres.Update t (service.taskRepo s)) as [[c [e|]] r]; simpl;
      split; (lia || reflexivity).
  - unfold service.Task.GetByID.
    destruct (postgres.GetByID id (service.taskRepo s)) as [[c [e|]] r]; simpl;
      split; (lia || reflexivity).
  - unfold service.Task.List.
    destruct (postgres.List q (service.taskRepo s)) as [[[ts n] [e|]] r]; simpl;
      split; (lia || reflexivity).
  - unfold service.Task.Delete.
    destruct (postgres.Delete id (service.taskRepo s)) as [[e|] r]; simpl;
      split; (lia || reflexivity).
Qed.

End service_more.

(** X13.  The service adds nothing to and hides nothing from the
    repository: for each of create, update, get and delete, the values
    and the error it returns are the repository's, and the repository is
    left in the state that call put it in. *)
Theorem service_is_transparent
    (R : Type) `{postgres.TaskRepository R}
    (t : entities.Task) (id : Z) (s : service.Svc R) :
  ((service.Create t s).1 = (postgres.Create t (service.taskRepo s)).1 /\
   service.taskRepo (service.Create t s).2 = (postgres.Create t (service.taskRepo s)).2) /\
  ((service.Update t s).1 = (postgres.Update t (service.taskRepo s)).1 /\
   service.taskRepo (service.Update t s).2 = (postgres.Update t (service.taskRepo s)).2) /\
  ((service.GetByID id s).1 = (postgres.GetByID id (service.taskRepo s)).1 /\
   service.taskRepo (service.GetByID id s).2
   = (postgres.GetByID id (service.taskRepo s)).2) /\
  ((service.Delete id s).1 = (postgres.Delete id (service.taskRepo s)).1 /\
   service.taskRepo (service.Delete id s).2 = (postgres.Delete id (service.taskRepo s)).2).
Proof.
  simpl. unfold service.Task.Create, service.Task.Update, service.Task.GetByID,
    service.Task.Delete.
  destruct (postgres.Create t (service.taskRepo s)) as [[c1 e1] r1].
  destruct (postgres.Update t (service.taskRepo s)) as [[c2 e2] r2].
  destruct (postgres.GetByID id (service.taskRepo s)) as [[c3 e3] r3].
  destruct (postgres.Delete id (service.taskRepo s)) as [e4 r4].
  repeat split.
Qed.

(** X14.  Over any sequence of service calls the task counter grows by
    exactly the number of creations that succeeded: failed creations,
    updates, reads and deletions, successful or not, leave it as it is.
    In particular deleting a task never lowers the counter. *)
Theorem TasksCount_counts_creations
    (R : Type) `{postgres.TaskRepository R}
    (ops : list inv.Op) (s : service.Svc R) :
  let out := inv.run_ops ops s in
  monitoring.TasksCount (service.metrics out.2)
  = monitoring.TasksCount (service.metrics s)
    + Z.of_nat (length (List.filter inv.successful_create out.1)).
Proof.
  revert s. induction ops as [|op ops IH]; intros s; simpl.
  - lia.
  - destruct (service_more.run_op_metrics op s) as [Hcount _].
    destruct (inv.run_op op s) as [err s1]. cbn [fst snd] in Hcount.
    specialize (IH s1). cbn zeta in IH.
    destruct (inv.run_ops ops s1) as [log s2]. cbn [fst snd] in *.
    rewrite IH, Hcount. cbn [List.filter].
    destruct (inv.successful_create (op, err)); cbn [length]; lia.
Qed.

(** X15.  Every service call, whatever its outcome, records exactly one
    latency observation, labelled with the HTTP method of the operation,
    "success" or "error" according to the error it returned, and
    "task_service"; the observations appear in call order. *)
Theorem one_observation_per_call
    (R : Type) `{postgres.TaskRepository R}
    (ops : list inv.Op) (s : service.Svc R) :
  let out := inv.run_ops ops s in
  monitoring.RequestLatency (service.metrics out.2)
  = monitoring.RequestLatency (service.metrics s) ++ List.map inv.labels_of out.1.
Proof.
  revert s. induction ops as [|op ops IH]; intros s; simpl.
  - by rewrite app_nil_r.
  - destruct (service_more.run_op_metrics op s) as [_ Hobs].
    destruct (inv.run_op op s) as [err s1]. cbn [fst snd] in Hobs.
    specialize (IH s1). cbn zeta in IH.
    destruct (inv.run_ops ops s1) as [log s2]. cbn [fst snd] in *.
    rewrite IH, Hobs, <- app_assoc. reflexivity.
Qed.

(** ** Request parsing, continued *)

Module rest_more.

Import rest.

Lemma lookup_raw_filter (params : gmap string (list string)) (k : string) :
  inv.raw_filter params !! k
  = if decide (k = PageKey) then None
    else if decide (k = PerPageKey) then None
    else params !! k ≫= head.
Proof.
  unfold inv.raw_filter. rewrite lookup_omap.
  destruct (decide (k = PageKey)) as [->|Hp].
  - by rewrite lookup_delete_eq.
  - rewrite lookup_delete_ne by done.
    destruct (decide (k = PerPageKey)) as [->|Hpp].
    + by rewrite lookup_delete_eq.
    + by rewrite lookup_delete_ne.
Qed.

(** The loop, started from any query, in closed form. *)
Lemma fold_params (params : gmap string (list string)) :
  forall q,
    foldl ParseQuery_step q (map_to_list params)
    = mkQuery (inv.raw_filter params ∪ Filter q)
        (mkMeta
           (match params !! PageKey with
            | Some (v :: _) => (strconv.Atoi v).1
            | _ => QPage q
            end)
           (match params !! PerPageKey with
            | Some (v :: _) => (strconv.Atoi v).1
            | _ => QPerPage q
            end)
           (Total (Pagination q)) (TotalPages (Pagination q))).
Proof.
  induction params as [|k vs m Hfresh IH] using map_ind; intros q.
  - rewrite map_to_list_empty. simpl. rewrite !lookup_empty.
    unfold inv.raw_filter. rewrite !delete_empty, omap_empty, (left_id_L ∅ (∪)).
    destruct q as [F [p pp t tp]]. reflexivity.
  - rewrite (foldl_perm_keys ParseQuery_step _ ((k, vs) :: map_to_list m)).
    + simpl. rewrite IH. clear IH.
      assert (forall j, j <> k -> (<[k:=vs]> m) !! j = m !! j) as Hother
        by (intros j Hj; by rewrite lookup_insert_ne).
      destruct vs as [|v vs]; simpl.
      * f_equal.
        -- f_equal. apply map_eq. intros j. rewrite !lookup_raw_filter.
           destruct (decide (j = k)) as [->|Hj];
             [by rewrite lookup_insert_eq, Hfresh | by rewrite Hother].
        -- destruct (decide (k = PageKey)) as [->|Hp].
           { rewrite lookup_insert_eq, Hfresh, (Hother PerPageKey) by discriminate.
             reflexivity. }
           destruct (decide (k = PerPageKey)) as [->|Hpp].
           { rewrite (Hother PageKey) by discriminate.
             rewrite lookup_insert_eq, Hfresh. reflexivity. }
           rewrite (Hother PageKey), (Hother PerPageKey) by congruence.
           reflexivity.
      * destruct (String.eqb_spec k PageKey) as [->|Hp].
        { rewrite lookup_insert_eq, Hfresh, (Hother PerPageKey) by discriminate.
          f_equal. f_equal. apply map_eq. intros j. rewrite !lookup_raw_filter.
          destruct (decide (j = PageKey)); [reflexivity|].
          by rewrite Hother. }
        destruct (String.eqb_spec k PerPageKey) as [->|Hpp].
        { rewrite lookup_insert_eq, Hfresh, (Hother PageKey) by discriminate.
          f_equal. f_equal. apply map_eq. intros j. rewrite !lookup_raw_filter.
          destruct (decide (j = PageKey)); [reflexivity|].
          destruct (decide (j = PerPageKey)); [reflexivity|].
          by rewrite Hother. }
        rewrite (Hother PageKey), (Hother PerPageKey) by congruence.
        unfold with_Filter. cbn [Filter Pagination QPage QPerPage]. f_equal.
        apply map_eq. intros j. rewrite !lookup_union, !lookup_raw_filter.
        destruct (decide (j = PageKey)) as [->|Hjp].
        { rewrite lookup_insert_ne by congruence. reflexivity. }
        destruct (decide (j = PerPageKey)) as [->|Hjpp].
        { rewrite lookup_insert_ne by congruence. reflexivity. }
        destruct (decide (j = k)) as [->|Hj].
        -- rewrite !lookup_insert_eq, Hfresh. simpl.
           by destruct (Filter q !! k).
        -- rewrite !lookup_insert_ne by congruence. reflexivity.
    + intros a x y. apply rest_facts.ParseQuery_step_comm.
    + by apply map_to_list_insert.
    + apply NoDup_fst_map_to_list.
Qed.

End rest_more.

(** X16.  Go leaves the visiting order of a map unspecified; whatever
    order the runtime picks for the URL parameters, [ParseQuery]
    produces the same query. *)
Theorem ParseQuery_any_order (params : gmap string (list string))
    (order : list (string * list string)) :
  order ≡ₚ map_to_list params -> rest.ParseQuery_in order = rest.ParseQuery params.
Proof. apply rest_facts.ParseQuery_order_irrelevant. Qed.

Lemma ParseQuery_any_order_witness :
  rest.ParseQuery_in [("status", ["done"]); ("page", ["2"])]
  = rest.ParseQuery (list_to_map [("page", ["2"]); ("status", ["done"])]).
Proof.
  apply ParseQuery_any_order.
  rewrite map_to_list_to_map; [apply perm_swap|].
  vm_compute. repeat constructor; rewrite ?elem_of_cons, ?elem_of_nil; intuition discriminate.
Defined.

(** X17.  [ParseQuery] in closed form.  The filter holds the first
    value of every URL parameter other than [page] and [per_page] that
    has a value, and nothing else; the page and the page size are what
    [Atoi] reads from the first value of those two parameters, with 0
    (also the reading of an absent, empty or non-numeric parameter)
    replaced by 1 and 20; total and total pages are 0. *)
Theorem ParseQuery_closed_form (params : gmap string (list string)) :
  rest.ParseQuery params
  = rest.mkQuery (inv.raw_filter params)
      (rest.mkMeta
         (if inv.raw_int params rest.PageKey =? 0 then 1
          else inv.raw_int params rest.PageKey)
         (if inv.raw_int params rest.PerPageKey =? 0 then 20
          else inv.raw_int params rest.PerPageKey)
         0 0).
Proof.
  unfold rest.ParseQuery, rest.ParseQuery_in. rewrite rest_more.fold_params.
  cbn [rest.empty_query rest.Filter rest.Pagination rest.QPage rest.QPerPage
       rest.Page rest.PerPage rest.Total rest.TotalPages].
  rewrite (right_id_L ∅ (∪)).
  fold (inv.raw_int params rest.PageKey). fold (inv.raw_int params rest.PerPageKey).
  unfold rest.ParseQuery_defaults, rest.QPage, rest.QPerPage, rest.with_Page,
    rest.with_PerPage.
  cbn [rest.Filter rest.Pagination rest.Page rest.PerPage rest.Total rest.TotalPages].
  destruct (inv.raw_int params rest.PageKey =? 0);
    cbn [rest.Filter rest.Pagination rest.Page rest.PerPage rest.Total rest.TotalPages];
    destruct (inv.raw_int params rest.PerPageKey =? 0); reflexivity.
Qed.

(** ** The handlers, continued *)

Module http_more.

Import errors.

Lemma bind_update_inr b req :
  http.ShouldBindJSON_update b = inr req ->
  b = http.Decoded req /\
  http.status_tag_errors "UpdateTaskRequest.Status" "Status" (http.u_Status req) = [].
Proof.
  destruct b as [msg|r]; simpl; [discriminate|].
  destruct (http.required_string _ _ _) as [|e1 l1]; simpl.
  - destruct (http.status_tag_errors _ _ _) as [|e2 l2] eqn:Hs; simpl.
    + destruct (http.required_int _ _ _); [|discriminate].
      intros [= <-]. split; [reflexivity|exact Hs].
    + discriminate.
  - discriminate.
Qed.

Lemma status_tag_ok (s : entities.TaskStatus) :
  http.status_tag_errors "UpdateTaskRequest.Status" "Status" s = [] ->
  s = "pending" \/ s = "in_progress" \/ s = "done" \/ s = "canceled".
Proof.
  unfold http.status_tag_errors.
  destruct (String.eqb_spec s ""); [discriminate|].
  cbn [existsb].
  destruct (String.eqb_spec s "pending"); [tauto|].
  destruct (String.eqb_spec s "in_progress"); [tauto|].
  destruct (String.eqb_spec s "done"); [tauto|].
  destruct (String.eqb_spec s "canceled"); [tauto|].
  discriminate.
Qed.

Lemma bind_update_ok (req : http.UpdateTaskRequest) :
  http.u_Title req <> "" -> http.u_AssigneeID req <> 0 ->
  entities.IsValid (http.u_Status req) = true ->
  http.ShouldBindJSON_update (http.Decoded req) = inr req.
Proof.
  intros Ht Ha Hs. simpl. unfold http.required_string, http.required_int,
    http.status_tag_errors.
  destruct (String.eqb_spec (http.u_Title req) ""); [contradiction|].
  destruct (Z.eqb_spec (http.u_AssigneeID req) 0); [contradiction|].
  apply http_facts.IsValid_spec in Hs.
  destruct (String.eqb_spec (http.u_Status req) "") as [He|_].
  { rewrite He in Hs. intuition discriminate. }
  cbn [existsb].
  destruct (String.eqb_spec (http.u_Status req) "pending"); [reflexivity|].
  destruct (String.eqb_spec (http.u_Status req) "in_progress"); [reflexivity|].
  destruct (String.eqb_spec (http.u_Status req) "done"); [reflexivity|].
  destruct (String.eqb_spec (http.u_Status req) "canceled"); [reflexivity|].
  intuition congruence.
Qed.

Lemma parsed_not_empty param id : strconv.ParseInt param = (id, true) -> param <> "".
Proof. intros Hp ->. discriminate. Qed.

End http_more.

(** X18.  A task id in the path that does not read as a 64-bit decimal
    integer (the empty text included) makes the get, delete and update
    handlers reply 400 with the validation envelope and leaves the
    service exactly as it was: no service call is made. *)
Theorem bad_id_is_rejected
    (S : Type) `{service.TaskService S}
    (param : string) (body : http.Body http.UpdateTaskRequest) (h : S) :
  (strconv.ParseInt param).2 = false ->
  (inv.rejected (http.TaskGetByID param h).1 /\ (http.TaskGetByID param h).2 = h) /\
  (inv.rejected (http.TaskDelete param h).1 /\ (http.TaskDelete param h).2 = h) /\
  (inv.rejected (http.TaskUpdate param body h).1 /\ (http.TaskUpdate param body h).2 = h).
Proof.
  intros Hbad. unfold http.TaskGetByID, http.TaskDelete, http.TaskUpdate, inv.rejected.
  destruct (String.eqb param "").
  - repeat split; eexists; reflexivity.
  - destruct (strconv.ParseInt param) as [id ok]. cbn [snd] in Hbad. subst ok.
    cbn [negb]. repeat split; eexists; reflexivity.
Qed.

Lemma bad_id_is_rejected_witness :
  (http.TaskDelete "12a" props.sample_service).2 = props.sample_service /\
  inv.rejected (http.TaskGetByID "99999999999999999999" props.sample_service).1.
Proof.
  split.
  - exact (proj2 (proj1 (proj2
             (bad_id_is_rejected _ "12a" (http.Undecodable "") props.sample_service
                ltac:(vm_compute; reflexivity))))).
  - exact (proj1 (proj1
             (bad_id_is_rejected _ "99999999999999999999" (http.Undecodable "")
                props.sample_service ltac:(vm_compute; reflexivity)))).
Defined.

(** X19.  A create request without a title, or with assignee 0 (which
    the binding cannot tell from an absent one), is answered 400 with
    the validation envelope, one message per offending field, and the
    service is left exactly as it was. *)
Theorem TaskCreate_required_fields
    (S : Type) `{service.TaskService S}
    (req : http.CreateTaskRequest) (h : S) :
  http.c_Title req = "" \/ http.c_AssigneeID req = 0 ->
  exists errs,
    http.TaskCreate (http.Decoded req) h
    = (http.JSON 400
         (rest.GetFailedResponseFromMessageAndErrors "validation error" errs), h) /\
    length errs
    = ((if String.eqb (http.c_Title req) "" then 1 else 0)
       + (if Z.eqb (http.c_AssigneeID req) 0 then 1 else 0))%nat.
Proof.
  intros Hmissing. unfold http.TaskCreate, http.ShouldBindJSON_create,
    http.required_string, http.required_int.
  destruct (String.eqb_spec (http.c_Title req) "") as [Ht|Ht];
    destruct (Z.eqb_spec (http.c_AssigneeID req) 0) as [Ha|Ha];
    try (exfalso; tauto);
    cbn [app]; eexists; (split; [reflexivity|]); reflexivity.
Qed.

Lemma TaskCreate_required_fields_witness :
  exists errs,
    http.TaskCreate (http.Decoded (http.mkCreateReq "" "no title" "done" 0))
      props.sample_service
    = (http.JSON 400
         (rest.GetFailedResponseFromMessageAndErrors "validation error" errs),
       props.sample_service) /\
    length errs = 2%nat.
Proof.
  apply (TaskCreate_required_fields _ (http.mkCreateReq "" "no title" "done" 0)
           props.sample_service).
  left. reflexivity.
Defined.

(** X20.  Unlike creation, an update does not default the status: an
    update request whose status is empty or not one of the four
    enumerated values is answered 400 with the validation envelope,
    whatever the path id, and the service is left exactly as it was. *)
Theorem TaskUpdate_validates_status
    (S : Type) `{service.TaskService S}
    (param : string) (req : http.UpdateTaskRequest) (h : S) :
  entities.IsValid (http.u_Status req) = false ->
  inv.rejected (http.TaskUpdate param (http.Decoded req) h).1 /\
  (http.TaskUpdate param (http.Decoded req) h).2 = h.
Proof.
  intros Hinvalid. unfold http.TaskUpdate, inv.rejected.
  destruct (String.eqb param ""); [split; [eexists|]; reflexivity|].
  destruct (strconv.ParseInt param) as [id [|]]; cbn [negb];
    [|split; [eexists|]; reflexivity].
  destruct (http.ShouldBindJSON_update (http.Decoded req)) as [err|req'] eqn:Hbind.
  - destruct (http_facts.failed_validation_shape err) as [errs Herrs].
    rewrite Herrs. split; [eexists|]; reflexivity.
  - apply http_more.bind_update_inr in Hbind as [[= <-] Hok].
    apply http_more.status_tag_ok in Hok.
    apply http_facts.IsValid_spec in Hok. congruence.
Qed.

Lemma TaskUpdate_validates_status_witness :
  inv.rejected
    (http.TaskUpdate "1" (http.Decoded (http.mkUpdateReq "T1" "" "" 5))
       props.sample_service).1 /\
  (http.TaskUpdate "1" (http.Decoded (http.mkUpdateReq "T1" "" "" 5))
     props.sample_service).2 = props.sample_service.
Proof.
  apply (TaskUpdate_validates_status _ "1" (http.mkUpdateReq "T1" "" "" 5)
           props.sample_service).
  reflexivity.
Defined.

(** X21.  The list handler answers 200 or 500 and nothing else.  On
    success the envelope carries the tasks and the total the service
    returned and the page and page size of the parsed query, while
    [total_pages] is always 0: the handler never computes it.  Any
    service error, "not found" included, gives 500. *)
Theorem TaskList_reply
    (S : Type) `{service.TaskService S}
    (params : gmap string (list string)) (h : S) :
  let q := rest.ParseQuery params in
  let out := service.List q h in
  (http.TaskList params h).2 = out.2 /\
  (out.1.2 = None ->
   (http.TaskList params h).1
   = http.JSON 200
       (rest.mkResponse (Some (http.Tasks out.1.1.1))
          (rest.mkMeta (rest.QPage q) (rest.QPerPage q) out.1.1.2 0)
          "success" [] rest.OK)) /\
  (forall e, out.1.2 = Some e ->
   (http.TaskList params h).1 = http.JSON 500 rest.InternalServerError).
Proof.
  intros q out. subst q out. unfold http.TaskList.
  destruct (service.List (rest.ParseQuery params) h) as [[[tasks total] [e|]] h'];
    cbn [fst snd]; repeat split; try discriminate.
Qed.

Lemma TaskList_reply_witness :
  (http.TaskList {[ "per_page" := ["2"] ]}
     (service.mkSvc props.sample_db props.no_metrics)).1
  = http.JSON 200
      (rest.mkResponse (Some (http.Tasks [props.t1; props.t2]))
         (rest.mkMeta 1 2 3 0) "success" [] rest.OK).
Proof.
  destruct (TaskList_reply _ {[ "per_page" := ["2"] ]}
              (service.mkSvc props.sample_db props.no_metrics)) as (_ & Hok & _).
  rewrite Hok; [|vm_compute; reflexivity].
  vm_compute. reflexivity.
Defined.

(** ** The whole stack: handler, service and SQL repository *)

Module stack.

Import errors.

(** The reply each id-addressed handler builds from what the service
    returned. *)
Lemma TaskGetByID_reply {S : Type} `{service.TaskService S} param id (h : S) :
  strconv.ParseInt param = (id, true) ->
  (http.TaskGetByID param h).1
  = match (service.GetByID id h).1 with
    | (_, Some e) =>
        if Is_ErrTaskNotFound e then http.JSON 404 rest.NotFound
        else http.JSON 500 rest.InternalServerError
    | (Some t, None) =>
        http.JSON 200 (rest.GetSuccessResponse (http.OneTask (http.response_of t)))
    | (None, None) => http.Panicked
    end /\
  (http.TaskGetByID param h).2 = (service.GetByID id h).2.
Proof.
  intros Hp. unfold http.TaskGetByID.
  destruct (String.eqb_spec param "") as [He|_];
    [by apply http_more.parsed_not_empty in Hp|].
  rewrite Hp. cbn [negb].
  destruct (service.GetByID id h) as [[[t|] [e|]] h']; cbn [fst snd];
    try destruct (Is_ErrTaskNotFound e); split; reflexivity.
Qed.

Lemma TaskDelete_reply {S : Type} `{service.TaskService S} param id (h : S) :
  strconv.ParseInt param = (id, true) ->
  (http.TaskDelete param h).1
  = match (service.Delete id h).1 with
    | Some e =>
        if Is_ErrTaskNotFound e then http.JSON 404 rest.NotFound
        else http.JSON 500 rest.InternalServerError
    | None => http.StatusOnly 204
    end /\
  (http.TaskDelete param h).2 = (service.Delete id h).2.
Proof.
  intros Hp. unfold http.TaskDelete.
  destruct (String.eqb_spec param "") as [He|_];
    [by apply http_more.parsed_not_empty in Hp|].
  rewrite Hp. cbn [negb].
  destruct (service.Delete id h) as [[e|] h']; cbn [fst snd];
    try destruct (Is_ErrTaskNotFound e); split; reflexivity.
Qed.

Lemma TaskUpdate_reply {S : Type} `{service.TaskService S} param id req (h : S) :
  strconv.ParseInt param = (id, true) ->
  http.ShouldBindJSON_update (http.Decoded req) = inr req ->
  (http.TaskUpdate param (http.Decoded req) h).1
  = match (service.Update (http.update_entity id req) h).1 with
    | (_, Some e) =>
        if Is_ErrTaskNotFound e then http.JSON 404 rest.NotFound
        else http.JSON 500 rest.InternalServerError
    | (Some t, None) =>
        http.JSON 200 (rest.GetSuccessResponse (http.OneTask (http.response_of t)))
    | (None, None) => http.Panicked
    end /\
  (http.TaskUpdate param (http.Decoded req) h).2
  = (service.Update (http.update_entity id req) h).2.
Proof.
  intros Hp Hbind. unfold http.TaskUpdate.
  destruct (String.eqb_spec param "") as [He|_];
    [by apply http_more.parsed_not_empty in Hp|].
  rewrite Hp. cbn [negb]. rewrite Hbind.
  destruct (service.Update _ h) as [[[t|] [e|]] h']; cbn [fst snd];
    try destruct (Is_ErrTaskNotFound e); split; reflexivity.
Qed.

(** The service over the SQL repository, seen from the repository. *)
Lemma svc_GetByID id (h : service.Svc db.DB) :
  (service.GetByID id h).1 = (postgres.Task.GetByID id (service.taskRepo h)).1 /\
  service.taskRepo (service.GetByID id h).2
  = (postgres.Task.GetByID id (service.taskRepo h)).2.
Proof.
  simpl. unfold service.Task.GetByID. simpl.
  destruct (postgres.Task.GetByID id (service.taskRepo h)) as [[t e] r]. split; reflexivity.
Qed.

Lemma svc_Delete id (h : service.Svc db.DB) :
  (service.Delete id h).1 = (postgres.Task.Delete id (service.taskRepo h)).1 /\
  service.taskRepo (service.Delete id h).2
  = (postgres.Task.Delete id (service.taskRepo h)).2.
Proof.
  simpl. unfold service.Task.Delete. simpl.
  destruct (postgres.Task.Delete id (service.taskRepo h)) as [e r]. split; reflexivity.
Qed.

Lemma svc_Update t (h : service.Svc db.DB) :
  (service.Update t h).1 = (postgres.Task.Update t (service.taskRepo h)).1 /\
  service.taskRepo (service.Update t h).2
  = (postgres.Task.Update t (service.taskRepo h)).2.
Proof.
  simpl. unfold service.Task.Update. simpl.
  destruct (postgres.Task.Update t (service.taskRepo h)) as [[c e] r]. split; reflexivity.
Qed.

Lemma svc_Create t (h : service.Svc db.DB) :
  (service.Create t h).1 = (postgres.Task.Create t (service.taskRepo h)).1 /\
  service.taskRepo (service.Create t h).2
  = (postgres.Task.Create t (service.taskRepo h)).2.
Proof.
  simpl. unfold service.Task.Create. simpl.
  destruct (postgres.Task.Create t (service.taskRepo h)) as [[c e] r]. split; reflexivity.
Qed.

Lemma svc_List q (h : service.Svc db.DB) :
  (service.List q h).1 = (postgres.Task.List q (service.taskRepo h)).1 /\
  service.taskRepo (service.List q h).2
  = (postgres.Task.List q (service.taskRepo h)).2 /\
  service.metrics (service.List q h).2
  = monitoring.Observe "GET"
      (service.statusLabel (postgres.Task.List q (service.taskRepo h)).1.2)
      "task_service" (service.metrics h).
Proof.
  simpl. unfold service.Task.List. simpl.
  destruct (postgres.Task.List q (service.taskRepo h)) as [[[ts n] e] r].
  repeat split.
Qed.

End stack.

(** X22.  [GET /api/tasks/:id] over the SQL repository, for an id that
    reads as an integer: 200 with the stored task when a row has that
    id, 404 when none has, and 500 when the engine fails. *)
Theorem get_endpoint (param : string) (id : Z) (h : service.Svc db.DB) :
  strconv.ParseInt param = (id, true) ->
  let d := service.taskRepo h in
  let reply := (http.TaskGetByID param h).1 in
  (forall r, inv.runs d -> props.stored id d = Some r ->
     reply = http.JSON 200 (rest.GetSuccessResponse (http.OneTask (http.response_of r)))) /\
  (inv.runs d -> props.stored id d = None -> reply = http.JSON 404 rest.NotFound) /\
  (forall msg, (db.begin_stmt d).1 = Some msg ->
     reply = http.JSON 500 rest.InternalServerError).
Proof.
  intros Hp d reply. subst reply.
  destruct (stack.TaskGetByID_reply param id h Hp) as [-> _].
  destruct (stack.svc_GetByID id h) as [-> _]. fold d.
  rewrite repo_more.GetByID_unfold. unfold inv.runs.
  pose proof (repo_more.begin_same d) as (Hrows & _ & _).
  destruct (db.begin_stmt d) as [[msg|] d1]; cbn [fst snd] in *.
  - split; [|split]; [discriminate..|]. reflexivity.
  - rewrite (repo_more.stored_same d d1 id Hrows).
    split; [|split]; [| |discriminate].
    + intros r _ ->. reflexivity.
    + intros _ ->. reflexivity.
Qed.

Lemma get_endpoint_witness :
  (http.TaskGetByID "2" (service.mkSvc props.sample_db props.no_metrics)).1
  = http.JSON 200 (rest.GetSuccessResponse (http.OneTask (http.response_of props.t2))) /\
  (http.TaskGetByID "7" (service.mkSvc props.sample_db props.no_metrics)).1
  = http.JSON 404 rest.NotFound /\
  (http.TaskGetByID "2" (service.mkSvc props.broken_db props.no_metrics)).1
  = http.JSON 500 rest.InternalServerError.
Proof.
  split; [|split].
  - apply (get_endpoint "2" 2 (service.mkSvc props.sample_db props.no_metrics) eq_refl);
      reflexivity.
  - apply (get_endpoint "7" 7 (service.mkSvc props.sample_db props.no_metrics) eq_refl);
      reflexivity.
  - apply (proj2 (proj2 (get_endpoint "2" 2
                            (service.mkSvc props.broken_db props.no_metrics) eq_refl))
             "connection refused").
    reflexivity.
Defined.

(** X23.  [DELETE /api/tasks/:id] over the SQL repository, for an id
    that reads as an integer: 204 when a row has that id, and then no
    row with it is left; 404 when none has, with the table untouched;
    500 when the engine fails, with the table untouched. *)
Theorem delete_endpoint (param : string) (id : Z) (h : service.Svc db.DB) :
  strconv.ParseInt param = (id, true) ->
  let d := service.taskRepo h in
  let out := http.TaskDelete param h in
  (inv.runs d -> props.stored id d <> None ->
     out.1 = http.StatusOnly 204 /\ props.stored id (service.taskRepo out.2) = None) /\
  (inv.runs d -> props.stored id d = None ->
     out.1 = http.JSON 404 rest.NotFound /\
     db.rows (service.taskRepo out.2) = db.rows d) /\
  (forall msg, (db.begin_stmt d).1 = Some msg ->
     out.1 = http.JSON 500 rest.InternalServerError /\
     db.rows (service.taskRepo out.2) = db.rows d).
Proof.
  intros Hp d out. subst out.
  destruct (stack.TaskDelete_reply param id h Hp) as [-> ->].
  destruct (stack.svc_Delete id h) as [-> ->]. fold d.
  rewrite repo_more.Delete_unfold. unfold inv.runs.
  pose proof (repo_more.begin_same d) as (Hrows & _ & _).
  destruct (db.begin_stmt d) as [[msg|] d1]; cbn [fst snd] in *.
  - split; [|split]; [discriminate..|]. intros ? _. split; [reflexivity|exact Hrows].
  - rewrite (repo_more.stored_same d d1 id Hrows).
    split; [|split]; [| |discriminate].
    + intros _ Hsome. destruct (props.stored id d) as [r|] eqn:Hst; [|contradiction].
      split; [reflexivity|].
      apply repo_more.stored_none. cbn [db.rows db.with_rows].
      apply Forall_forall. intros x Hin.
      apply list_elem_of_In, filter_In in Hin as [_ Hne].
      by apply negb_true_iff, Z.eqb_neq in Hne.
    + intros _ Hnone. rewrite Hnone. split; [reflexivity|].
      cbn [db.rows db.with_rows]. rewrite Hrows.
      apply repo_more.stored_none in Hnone. clear Hrows.
      induction Hnone as [|x l Hx _ IH]; simpl; [reflexivity|].
      destruct (Z.eqb_spec (entities.ID x) id); [contradiction|]. simpl. by rewrite IH.
Qed.

Lemma delete_endpoint_witness :
  (http.TaskDelete "2" (service.mkSvc props.sample_db props.no_metrics)).1
  = http.StatusOnly 204 /\
  (http.TaskDelete "7" (service.mkSvc props.sample_db props.no_metrics)).1
  = http.JSON 404 rest.NotFound.
Proof.
  split.
  - apply (proj1 (delete_endpoint "2" 2
                    (service.mkSvc props.sample_db props.no_metrics) eq_refl));
      [reflexivity | discriminate].
  - apply (proj1 (proj2 (delete_endpoint "7" 7
                    (service.mkSvc props.sample_db props.no_metrics) eq_refl)));
      reflexivity.
Defined.

(** X24.  [PUT /api/tasks/:id] over the SQL repository, for an id that
    reads as an integer and a body that passes binding.  When a row has
    the id: 200, the reply carries the request's title, description and
    status, the stored row's assignee and creation time (the request's
    assignee is required and then ignored), the clock as update time,
    and that is the row stored afterwards.  When no row has the id: 404
    and the table is untouched.  When the engine fails: 500 and the
    table is untouched. *)
Theorem put_endpoint (param : string) (id : Z) (req : http.UpdateTaskRequest)
    (h : service.Svc db.DB) :
  strconv.ParseInt param = (id, true) ->
  http.u_Title req <> "" -> http.u_AssigneeID req <> 0 ->
  entities.IsValid (http.u_Status req) = true ->
  let d := service.taskRepo h in
  let out := http.TaskUpdate param (http.Decoded req) h in
  (forall old, inv.runs d -> props.stored id d = Some old ->
     let new := entities.mkTask id (http.u_Title req) (http.u_Description req)
                  (http.u_Status req) (entities.AssigneeID old)
                  (entities.CreatedAt old) (db.now d) in
     out.1 = http.JSON 200 (rest.GetSuccessResponse (http.OneTask (http.response_of new))) /\
     props.stored id (service.taskRepo out.2) = Some new) /\
  (inv.runs d -> props.stored id d = None ->
     out.1 = http.JSON 404 rest.NotFound /\
     db.rows (service.taskRepo out.2) = db.rows d) /\
  (forall msg, (db.begin_stmt d).1 = Some msg ->
     out.1 = http.JSON 500 rest.InternalServerError /\
     db.rows (service.taskRepo out.2) = db.rows d).
Proof.
  intros Hp Ht Ha Hs d out. subst out.
  pose proof (http_more.bind_update_ok req Ht Ha Hs) as Hbind.
  destruct (stack.TaskUpdate_reply param id req h Hp Hbind) as [-> ->].
  destruct (stack.svc_Update (http.update_entity id req) h) as [-> ->]. fold d.
  rewrite repo_facts.Update_unfold. unfold inv.runs.
  pose proof (repo_more.begin_same d) as (Hrows & _ & Hnow).
  destruct (db.begin_stmt d) as [[msg|] d1]; cbn [fst snd] in *.
  - split; [|split]; [discriminate..|]. intros ? _. split; [reflexivity|exact Hrows].
  - change (entities.ID (http.update_entity id req)) with id.
    rewrite (repo_more.stored_same d d1 id Hrows).
    split; [|split]; [| |discriminate].
    + intros old _ Hst.
      assert (props.touch (http.update_entity id req) (db.now d1) old
              = entities.mkTask id (http.u_Title req) (http.u_Description req)
                  (http.u_Status req) (entities.AssigneeID old)
                  (entities.CreatedAt old) (db.now d)) as Htouch.
      { destruct (repo_more.stored_Some id d old Hst) as [_ Hid].
        unfold props.touch, db.set_columns, http.update_entity. cbn [entities.ID
          entities.Title entities.Description entities.Status].
        rewrite Hid, Z.eqb_refl, Hnow. reflexivity. }
      rewrite Hst. cbn [fst snd]. rewrite Htouch. split; [reflexivity|].
      pose proof (repo_facts.stored_touched (http.update_entity id req)
                    (db.now d1) (db.rows d1) d1) as Hn.
      change (entities.ID (http.update_entity id req)) with id in Hn.
      rewrite Hn. rewrite Hrows.
      unfold props.stored in Hst. rewrite Hst. cbn [fmap option_fmap option_map].
      by rewrite Htouch.
    + intros _ Hnone. rewrite Hnone. split; [reflexivity|].
      cbn [db.rows db.with_rows]. rewrite Hrows.
      apply repo_more.map_touch_absent. by apply repo_more.stored_none.
Qed.

Lemma put_endpoint_witness :
  let out := http.TaskUpdate "2"
               (http.Decoded (http.mkUpdateReq "T2 again" "changed" "canceled" 99))
               (service.mkSvc props.sample_db props.no_metrics) in
  let new := entities.mkTask 2 "T2 again" "changed" "canceled"
               (entities.AssigneeID props.t2) (entities.CreatedAt props.t2)
               (db.now props.sample_db) in
  out.1 = http.JSON 200 (rest.GetSuccessResponse (http.OneTask (http.response_of new))) /\
  props.stored 2 (service.taskRepo out.2) = Some new.
Proof.
  apply (proj1 (put_endpoint "2" 2
                  (http.mkUpdateReq "T2 again" "changed" "canceled" 99)
                  (service.mkSvc props.sample_db props.no_metrics)
                  eq_refl ltac:(discriminate) ltac:(discriminate) eq_refl) props.t2);
    reflexivity.
Defined.

(** X25.  [POST /api/tasks] over the SQL repository, for a body with a
    title, an assignee and a status that is unset or one of the four
    enumerated values.  When the engine runs the insert: 201, the reply
    carries the request's fields with "pending" for an unset status,
    the sequence's next id and the clock for both times, and the table
    grows by exactly that row at its end.  When the engine fails: 500
    and the table is untouched. *)
Theorem post_endpoint (req : http.CreateTaskRequest) (h : service.Svc db.DB) :
  http.c_Title req <> "" -> http.c_AssigneeID req <> 0 ->
  let status := if String.eqb (http.c_Status req) ""
                then entities.TaskStatusPending else http.c_Status req in
  entities.IsValid status = true ->
  let d := service.taskRepo h in
  let out := http.TaskCreate (http.Decoded req) h in
  let new := entities.mkTask (db.next_id d) (http.c_Title req) (http.c_Description req)
               status (http.c_AssigneeID req) (db.now d) (db.now d) in
  (inv.runs d ->
     out.1 = http.JSON 201 (rest.GetSuccessResponse (http.OneTask (http.response_of new))) /\
     db.rows (service.taskRepo out.2) = db.rows d ++ [new]) /\
  (forall msg, (db.begin_stmt d).1 = Some msg ->
     out.1 = http.JSON 500 rest.InternalServerError /\
     db.rows (service.taskRepo out.2) = db.rows d).
Proof.
  intros Ht Ha status Hs d out new.
  pose proof (http_facts.bind_create_ok req Ht Ha) as Hbind.
  assert (out = let '((c, err), h') :=
                  service.Create
                    (entities.mkTask 0 (http.c_Title req) (http.c_Description req)
                       status (http.c_AssigneeID req) 0 0) h in
                match err with
                | Some _ => (http.JSON 500 rest.InternalServerError, h')
                | None =>
                    match c with
                    | Some t => (http.JSON 201 (rest.GetSuccessResponse
                                                  (http.OneTask (http.response_of t))), h')
                    | None => (http.Panicked, h')
                    end
                end) as Hout.
  { subst out. unfold http.TaskCreate. rewrite Hbind. subst status.
    destruct (String.eqb (http.c_Status req) "") eqn:He;
      cbn [http.c_Status http.c_Title http.c_Description http.c_AssigneeID] in *;
      rewrite Hs; reflexivity. }
  set (t := entities.mkTask 0 _ _ status _ 0 0) in Hout.
  destruct (stack.svc_Create t h) as [H1 H2]. fold d in H1, H2.
  rewrite repo_more.Create_unfold in H1, H2. unfold inv.runs.
  pose proof (repo_more.begin_same d) as (Hrows & Hnext & Hnow).
  destruct (service.Create t h) as [[c err] h'].
  destruct (db.begin_stmt d) as [[msg|] d1]; cbn [fst snd] in *.
  - injection H1 as -> ->. subst out. rewrite Hout. cbn [fst snd].
    split; [discriminate|]. intros ? _. split; [reflexivity|]. rewrite H2. exact Hrows.
  - injection H1 as -> ->. subst out. rewrite Hout. cbn [fst snd].
    split; [|discriminate]. intros _. rewrite H2. cbn [db.rows].
    rewrite Hrows, Hnext, Hnow. split; reflexivity.
Qed.

Lemma post_endpoint_witness :
  let out := http.TaskCreate (http.Decoded (http.mkCreateReq "T4" "fourth" "" 3))
               (service.mkSvc props.sample_db props.no_metrics) in
  let new := entities.mkTask (db.next_id props.sample_db) "T4" "fourth"
               entities.TaskStatusPending 3
               (db.now props.sample_db) (db.now props.sample_db) in
  out.1 = http.JSON 201 (rest.GetSuccessResponse (http.OneTask (http.response_of new))) /\
  db.rows (service.taskRepo out.2) = db.rows props.sample_db ++ [new].
Proof.
  apply (proj1 (post_endpoint (http.mkCreateReq "T4" "fourth" "" 3)
                  (service.mkSvc props.sample_db props.no_metrics)
                  ltac:(discriminate) ltac:(discriminate) eq_refl)).
  reflexivity.
Defined.

(** ** The list endpoint and the URL parameters *)

Module url.

Import rest.

Lemma ParseQuery_closed (params : gmap string (list string)) :
  ParseQuery params
  = mkQuery (inv.raw_filter params)
      (mkMeta
         (if inv.raw_int params PageKey =? 0 then 1 else inv.raw_int params PageKey)
         (if inv.raw_int params PerPageKey =? 0 then 20 else inv.raw_int params PerPageKey)
         0 0).
Proof.
  unfold ParseQuery, ParseQuery_in. rewrite rest_more.fold_params.
  cbn [empty_query Filter Pagination QPage QPerPage Page PerPage Total TotalPages].
  rewrite (right_id_L ∅ (∪)).
  fold (inv.raw_int params PageKey). fold (inv.raw_int params PerPageKey).
  unfold ParseQuery_defaults, QPage, QPerPage, with_Page, with_PerPage.
  cbn [Filter Pagination Page PerPage Total TotalPages].
  destruct (inv.raw_int params PageKey =? 0);
    cbn [Filter Pagination Page PerPage Total TotalPages];
    destruct (inv.raw_int params PerPageKey =? 0); reflexivity.
Qed.

Lemma raw_int_head (params : gmap string (list string)) (k : string) :
  inv.raw_int params k
  = match params !! k ≫= head with
    | Some v => (strconv.Atoi v).1
    | None => 0
    end.
Proof. unfold inv.raw_int. destruct (params !! k) as [[|v vs]|]; reflexivity. Qed.

Lemma filter_column_not_page (f : string) :
  postgres.Task.is_filter_column f = true ->
  In f ["title"; "status"; "assignee_id"] /\ f <> PageKey /\ f <> PerPageKey.
Proof.
  unfold postgres.Task.is_filter_column.
  destruct (String.eqb_spec f "status") as [->|_];
    [intros _; simpl; split; [tauto|split; discriminate]|].
  destruct (String.eqb_spec f "assignee_id") as [->|_];
    [intros _; simpl; split; [tauto|split; discriminate]|].
  destruct (String.eqb_spec f "title") as [->|_];
    [intros _; simpl; split; [tauto|split; discriminate]|].
  discriminate.
Qed.

Lemma raw_filter_column (params : gmap string (list string)) (f : string) :
  postgres.Task.is_filter_column f = true ->
  inv.raw_filter params !! f = params !! f ≫= head.
Proof.
  intros Hcol. apply filter_column_not_page in Hcol as (_ & Hp & Hpp).
  rewrite rest_more.lookup_raw_filter.
  destruct (decide (f = PageKey)); [contradiction|].
  destruct (decide (f = PerPageKey)); [contradiction|]. reflexivity.
Qed.

End url.

(** X26.  [GET /api/tasks] over the SQL repository reads five URL
    parameters and of each only the first value: two requests whose
    [page], [per_page], [title], [status] and [assignee_id] agree in
    their first value (a parameter without a value counting as absent)
    get the same reply and leave the service in the same state, whatever
    else either of them carries. *)
Theorem list_endpoint_reads_first_values
    (params params' : gmap string (list string)) (h : service.Svc db.DB) :
  (forall k, In k ["page"; "per_page"; "title"; "status"; "assignee_id"] ->
             params !! k ≫= head = params' !! k ≫= head) ->
  http.TaskList params h = http.TaskList params' h.
Proof.
  intros Hagree.
  assert (forall k, In k ["page"; "per_page"] ->
                    inv.raw_int params k = inv.raw_int params' k) as Hint.
  { intros k Hk. rewrite !url.raw_int_head, Hagree; [reflexivity|].
    simpl in *. tauto. }
  assert (forall t, props.exact_match (inv.raw_filter params) t
                    = props.exact_match (inv.raw_filter params') t) as Hkeep.
  { intros t. apply eq_true_iff_eq. rewrite !list_facts.exact_match_spec.
    split; intros Hall f v Hfv Hcol; apply Hall; try exact Hcol;
      rewrite url.raw_filter_column in * by exact Hcol;
      destruct (url.filter_column_not_page f Hcol) as (Hin & _);
      [rewrite Hagree | rewrite <- Hagree]; try exact Hfv; simpl in *; tauto. }
  assert (rest.QPage (rest.ParseQuery params) = rest.QPage (rest.ParseQuery params')
          /\ rest.QPerPage (rest.ParseQuery params)
             = rest.QPerPage (rest.ParseQuery params')) as [HP HS].
  { rewrite !url.ParseQuery_closed.
    cbn [rest.QPage rest.QPerPage rest.Pagination rest.Page rest.PerPage].
    change rest.PageKey with "page". change rest.PerPageKey with "per_page".
    rewrite !(Hint "page"), !(Hint "per_page") by (simpl; tauto). split; reflexivity. }
  assert (postgres.Task.List (rest.ParseQuery params) (service.taskRepo h)
          = postgres.Task.List (rest.ParseQuery params') (service.taskRepo h)) as HL.
  { rewrite !list_facts.List_listing, HP, HS.
    apply list_facts.listing_ext. intros t.
    rewrite !url.ParseQuery_closed. cbn [rest.Filter]. apply Hkeep. }
  unfold http.TaskList.
  change (service.List ?q h) with (service.Task.List q h).
  unfold service.Task.List.
  change (postgres.List ?q (service.taskRepo h))
    with (postgres.Task.List q (service.taskRepo h)).
  rewrite HL, HP, HS. reflexivity.
Qed.

Lemma list_endpoint_reads_first_values_witness :
  http.TaskList {[ "status" := ["done"; "pending"] ]}
    (service.mkSvc props.sample_db props.no_metrics)
  = http.TaskList (<[ "priority" := ["high"] ]> {[ "status" := ["done"] ]})
      (service.mkSvc props.sample_db props.no_metrics).
Proof.
  apply list_endpoint_reads_first_values.
  intros k Hk. simpl in Hk.
  destruct Hk as [<-|[<-|[<-|[<-|[<-|[]]]]]]; vm_compute; reflexivity.
Defined.

(** ** Package logger *)

(** X27.  [cleanUpDetail] leaves a payload without the keys [id] and
    [_id] and with every other entry as it was; it issues one warning
    for each of the two keys that was present and none otherwise; and
    run again on its own result it changes nothing and warns no
    more. *)
Theorem cleanUpDetail_spec {V : Type} (detail : gmap string V) (warnings : list string) :
  let out := logger.cleanUpDetail detail warnings in
  out.1 = delete "_id" (delete "id" detail) /\
  (forall k, out.1 !! k = if decide (k = "id" \/ k = "_id") then None else detail !! k) /\
  out.2 = warnings
          ++ replicate (match detail !! "id" with Some _ => 1 | None => 0 end
                        + match detail !! "_id" with Some _ => 1 | None => 0 end)%nat
               logger.bad_key_warning /\
  (forall ws, logger.cleanUpDetail out.1 ws = (out.1, ws)).
Proof.
  intros out.
  assert (out.1 = delete "_id" (delete "id" detail)) as Hmap.
  { subst out. unfold logger.cleanUpDetail, logger.cleanUpDetail_step,
      logger.BadKeyId, logger.BadKeyUnderScoreId. cbn [foldl].
    destruct (detail !! "id") as [x|] eqn:Hid.
    - rewrite lookup_delete_ne by discriminate.
      destruct (detail !! "_id") as [y|] eqn:Hu; cbn [fst]; [reflexivity|].
      symmetry. apply delete_id. by rewrite lookup_delete_ne.
    - rewrite (delete_id detail "id") by exact Hid.
      destruct (detail !! "_id") as [y|] eqn:Hu; cbn [fst]; [reflexivity|].
      symmetry. by apply delete_id. }
  split; [exact Hmap|]. split; [|split].
  - intros k. rewrite Hmap.
    destruct (decide (k = "id" \/ k = "_id")) as [[->| ->]|Hk].
    + rewrite lookup_delete_ne by discriminate. apply lookup_delete_eq.
    + apply lookup_delete_eq.
    + rewrite !lookup_delete_ne by (intros Heq; subst k; apply Hk; auto). reflexivity.
  - subst out. unfold logger.cleanUpDetail, logger.cleanUpDetail_step,
      logger.BadKeyId, logger.BadKeyUnderScoreId. cbn [foldl].
    destruct (detail !! "id") as [x|] eqn:Hid.
    + rewrite lookup_delete_ne by discriminate.
      destruct (detail !! "_id"); cbn [snd replicate Nat.add];
        [by rewrite <- app_assoc | reflexivity].
    + destruct (detail !! "_id"); cbn [snd replicate Nat.add];
        [reflexivity | by rewrite app_nil_r].
  - intros ws. rewrite Hmap.
    unfold logger.cleanUpDetail, logger.cleanUpDetail_step,
      logger.BadKeyId, logger.BadKeyUnderScoreId. cbn [foldl].
    rewrite (lookup_delete_ne _ "_id" "id") by discriminate.
    rewrite lookup_delete_eq. by rewrite lookup_delete_eq.
Qed.
